(** * anhelo: HLS ingestion pipeline, shallow embedding and verified properties

    The development follows the C sources:
    - [HlsParser]   : the playlist parser ([hls_parse_playlist_from_memory], [trim]);
    - [HlsStream]   : the refresh loop of src/dmux/hls/hls_demuxer.c
                      ([hls_resolve_url], [hls_process_stream]);
    - [SimpleH264]  : the parameter-set / slice state machine of
                      codecs/simple_h264 ([read_ue_golomb], [parse_sps],
                      [simple_h264_decode]);
    - [Twitch]      : variant selection of src/resolver/twitch.c;
    - [Player]      : NAL extraction and segment routing of src/main.c
                      ([hls_segment_callback]);
    - [Pacing]      : the post-decode frame-skip step of the playback loop
                      of src/main.c and of its sibling main file.
    The embedding comes first; the properties follow, one module of
    facts per module of definitions.

    C strings are [string]; byte buffers are [list byte]; [size_t] indices
    are [nat]; fixed-width integers are [Z] with their wrap-around written
    out.  Allocation and network outcomes are explicit inputs of the
    functions that depend on them. *)

From Stdlib Require Import ZArith List String Ascii Bool Lia Arith.
From Stdlib Require Import Strings.Byte.
Import ListNotations.

Open Scope string_scope.
Open Scope list_scope.

(* ================================================================== *)
(** * Allocation outcomes *)
(* ================================================================== *)

(** Every [malloc]/[calloc]/[realloc]/[strdup]/[strndup] of the source
    consumes one entry of a list of outcomes, in program order; an
    exhausted list means that the allocation succeeds. *)
Module Alloc.

Definition t := list bool.

Definition take (a : t) : bool * t :=
  match a with
  | [] => (true, [])
  | b :: r => (b, r)
  end.

(** The outcome list in which nothing ever fails. *)
Definition all_ok : t := [].

End Alloc.

(* ================================================================== *)
(** * include/hls_demuxer.h *)
(* ================================================================== *)

Inductive hls_playlist_type_t :=
| HLS_PLAYLIST_UNKNOWN
| HLS_PLAYLIST_MASTER
| HLS_PLAYLIST_MEDIA.

Inductive hls_error_t :=
| HLS_OK
| HLS_ERROR_MEMORY
| HLS_ERROR_NETWORK
| HLS_ERROR_PARSE
| HLS_ERROR_IO.

Definition hls_error_eqb (a b : hls_error_t) : bool :=
  match a, b with
  | HLS_OK, HLS_OK | HLS_ERROR_MEMORY, HLS_ERROR_MEMORY
  | HLS_ERROR_NETWORK, HLS_ERROR_NETWORK | HLS_ERROR_PARSE, HLS_ERROR_PARSE
  | HLS_ERROR_IO, HLS_ERROR_IO => true
  | _, _ => false
  end.

(** [duration] keeps the text handed to [atof] ([None] is the initial
    0.0): floating point conversion is not part of the embedding. *)
Record hls_segment_t := mk_segment {
  url : string;
  duration : option string;
  is_key_segment : bool;
  key_url : option string;
  key_iv : option string
}.

(** [segment_count] is [length segments].  An entry of [variants] is
    [None] when its pointer became indeterminate (see [add_variant]). *)
Record hls_playlist_t := mk_playlist {
  type : hls_playlist_type_t;
  base_url : option string;
  segments : list hls_segment_t;
  segment_capacity : nat;
  variants : list (option string)
}.

Definition segment_count (p : hls_playlist_t) : nat := List.length (segments p).
Definition variant_count (p : hls_playlist_t) : nat := List.length (variants p).

(* ================================================================== *)
(** * The playlist parser *)
(* ================================================================== *)

Module HlsParser.

Definition nl : ascii := "010"%char.
Definition nul : ascii := "000"%char.

(** [isspace] in the C locale: space, and \t \n \v \f \r. *)
Definition isspace (c : ascii) : bool :=
  let n := nat_of_ascii c in
  Nat.eqb n 32 || (Nat.leb 9 n && Nat.leb n 13).

(** Leading part of [trim]: [while (isspace(str[0])) str++]. *)
Fixpoint skip_leading (s : string) : string :=
  match s with
  | EmptyString => EmptyString
  | String c r => if isspace c then skip_leading r else s
  end.

(** Trailing part of [trim], applied to what follows the first kept
    character: [end] walks back while [end > str] and [*end] is a space. *)
Fixpoint drop_trailing (s : string) : string :=
  match s with
  | EmptyString => EmptyString
  | String c r =>
      match drop_trailing r with
      | EmptyString => if isspace c then EmptyString else String c EmptyString
      | r' => String c r'
      end
  end.

Definition trim (s : string) : string :=
  match skip_leading s with
  | EmptyString => EmptyString
  | String c r => String c (drop_trailing r)
  end.

(** The lines visited by [while (line < data + len)].  [data] is the
    [len] bytes of the buffer, which the download buffer terminates
    with a NUL at [data[len]].  [strchr(line, '\n')] stops at the first
    NUL, and so does [strndup]: a NUL inside the text ends the last line
    and the scan.  [lines_from] is called on a non-empty remainder. *)
Fixpoint lines_from (s : string) : list string :=
  match s with
  | EmptyString => [EmptyString]
  | String c r =>
      if Ascii.eqb c nl then
        EmptyString :: match r with
                       | EmptyString => []
                       | _ => lines_from r
                       end
      else if Ascii.eqb c nul then [EmptyString]
      else match lines_from r with
           | [] => [String c EmptyString]
           | l :: ls => String c l :: ls
           end
  end.

Definition lines (data : string) : list string :=
  match data with
  | EmptyString => []
  | _ => lines_from data
  end.

(** [strncmp(trimmed, tag, strlen(tag)) == 0]. *)
Definition has_tag (tag trimmed : string) : bool := String.prefix tag trimmed.

(** [trimmed[0] != '#' && strlen(trimmed) > 0]. *)
Definition is_uri_line (trimmed : string) : bool :=
  match trimmed with
  | EmptyString => false
  | String c _ => negb (Ascii.eqb c "#"%char)
  end.

(** [trimmed + 8], the argument of [atof]. *)
Definition after_extinf (trimmed : string) : string :=
  String.substring 8 (String.length trimmed - 8) trimmed.

Record pstate := mk_pstate {
  ps_alloc : Alloc.t;
  ps_playlist : hls_playlist_t;
  ps_duration : option string
}.

Definition set_type (k : hls_playlist_type_t) (p : hls_playlist_t) : hls_playlist_t :=
  mk_playlist k (base_url p) (segments p) (segment_capacity p) (variants p).

(** Master branch of the URI case.  [playlist->variants = realloc(...)]
    overwrites the pointer: on failure the array is lost while
    [variant_count] is kept, so the existing entries become
    indeterminate.  A failed [strdup] leaves the count unchanged. *)
Definition add_variant (trimmed : string) (a : Alloc.t) (p : hls_playlist_t)
  : Alloc.t * hls_playlist_t :=
  let (ok_arr, a1) := Alloc.take a in
  if ok_arr then
    let (ok_str, a2) := Alloc.take a1 in
    if ok_str then
      (a2, mk_playlist (type p) (base_url p) (segments p) (segment_capacity p)
             (variants p ++ [Some trimmed]))
    else (a2, p)
  else
    (a1, mk_playlist (type p) (base_url p) (segments p) (segment_capacity p)
           (map (fun _ => None) (variants p))).

(** Media branch of the URI case: grow the array when full (a failed
    [realloc] returns [HLS_ERROR_MEMORY]), then [strdup] the URI; the
    segment is counted only when the copy succeeded. *)
Definition add_segment (trimmed : string) (dur : option string)
    (a : Alloc.t) (p : hls_playlist_t)
  : hls_error_t * Alloc.t * hls_playlist_t :=
  let grow := Nat.leb (segment_capacity p) (segment_count p) in
  let cap := if grow then segment_capacity p * 2 else segment_capacity p in
  let '(ok_arr, a1) := if grow then Alloc.take a else (true, a) in
  let p1 := mk_playlist (type p) (base_url p) (segments p) cap (variants p) in
  if ok_arr then
    let (ok_str, a2) := Alloc.take a1 in
    if ok_str then
      (HLS_OK, a2,
       mk_playlist (type p) (base_url p)
         (segments p ++ [mk_segment trimmed dur false None None]) cap (variants p))
    else (HLS_OK, a2, p1)
  else (HLS_ERROR_MEMORY, a1, p1).

(** The [if / else if] chain applied to one trimmed line. *)
Definition classify (trimmed : string) (st : pstate) : hls_error_t * pstate :=
  let a := ps_alloc st in
  let p := ps_playlist st in
  let d := ps_duration st in
  if has_tag "#EXTM3U" trimmed then (HLS_OK, st)
  else if has_tag "#EXT-X-STREAM-INF:" trimmed then
    (HLS_OK, mk_pstate a (set_type HLS_PLAYLIST_MASTER p) d)
  else if has_tag "#EXTINF:" trimmed then
    (HLS_OK, mk_pstate a (set_type HLS_PLAYLIST_MEDIA p) (Some (after_extinf trimmed)))
  else if has_tag "#EXT-X-TARGETDURATION:" trimmed then
    (HLS_OK, mk_pstate a (set_type HLS_PLAYLIST_MEDIA p) d)
  else if has_tag "#EXT-X-MEDIA-SEQUENCE:" trimmed then
    (HLS_OK, mk_pstate a (set_type HLS_PLAYLIST_MEDIA p) d)
  else if is_uri_line trimmed then
    match type p with
    | HLS_PLAYLIST_MASTER =>
        let (a', p') := add_variant trimmed a p in
        (HLS_OK, mk_pstate a' p' d)
    | _ =>
        let '(e, a', p') := add_segment trimmed d a p in
        (e, mk_pstate a' p' d)
    end
  else (HLS_OK, st).

(** One iteration of the loop body: [strndup] the line, trim, classify. *)
Definition process_line (line : string) (st : pstate) : hls_error_t * pstate :=
  let (ok, a1) := Alloc.take (ps_alloc st) in
  if ok then
    classify (trim line) (mk_pstate a1 (ps_playlist st) (ps_duration st))
  else
    (HLS_ERROR_MEMORY, mk_pstate a1 (ps_playlist st) (ps_duration st)).

Fixpoint parse_lines (ls : list string) (st : pstate) : hls_error_t * pstate :=
  match ls with
  | [] => (HLS_OK, st)
  | l :: rest =>
      match process_line l st with
      | (HLS_OK, st') => parse_lines rest st'
      | (e, st') => (e, st')
      end
  end.

(** [playlist->base_url = strdup(base_url)] when [base_url] is given;
    the copy is not checked, a failed one stores NULL. *)
Definition store_base_url (base : option string) (a : Alloc.t) (p : hls_playlist_t)
  : Alloc.t * hls_playlist_t :=
  match base with
  | None => (a, p)
  | Some b =>
      let (ok, a1) := Alloc.take a in
      (a1, mk_playlist (type p) (if ok then Some b else None)
             (segments p) (segment_capacity p) (variants p))
  end.

(** [hls_parse_playlist_from_memory(demuxer, data, len, base_url, playlist)].
    [demuxer] is not used by the function.  [None] stands for a NULL
    [data] or [playlist]; the playlist is returned as the call leaves it. *)
Definition hls_parse_playlist_from_memory (a : Alloc.t) (data : option string)
    (base : option string) (playlist : option hls_playlist_t)
  : hls_error_t * Alloc.t * option hls_playlist_t :=
  match data, playlist with
  | Some d, Some p =>
      let (a1, p1) := store_base_url base a p in
      let (e, st) := parse_lines (lines d) (mk_pstate a1 p1 None) in
      (e, ps_alloc st, Some (ps_playlist st))
  | _, _ => (HLS_ERROR_PARSE, a, playlist)
  end.

(** ** The block behind [playlist->segments]

    The record holds the field [segment_capacity].  The number of slots
    of the block that [playlist->segments] points to is followed next
    to it: lines 129-136 double the field before the [realloc] and
    store the new block only when the [realloc] succeeded. *)

(** The line reaches the media branch of the URI case (line 127). *)
Definition reaches_add_segment (trimmed : string) (p : hls_playlist_t) : bool :=
  negb (has_tag "#EXTM3U" trimmed)
  && negb (has_tag "#EXT-X-STREAM-INF:" trimmed)
  && negb (has_tag "#EXTINF:" trimmed)
  && negb (has_tag "#EXT-X-TARGETDURATION:" trimmed)
  && negb (has_tag "#EXT-X-MEDIA-SEQUENCE:" trimmed)
  && is_uri_line trimmed
  && match type p with HLS_PLAYLIST_MASTER => false | _ => true end.

(** The media branch, seen from the block: its size afterwards, and
    whether the write to [segments[segment_count]] (lines 138-141) was
    inside it; [true] also when the branch returns before the write. *)
Definition add_segment_block (a : Alloc.t) (p : hls_playlist_t) (block : nat)
  : nat * bool :=
  if Nat.leb (segment_capacity p) (segment_count p) then
    if fst (Alloc.take a)
    then (segment_capacity p * 2,
          Nat.ltb (segment_count p) (segment_capacity p * 2))
    else (block, true)
  else (block, Nat.ltb (segment_count p) block).

Definition line_block (line : string) (st : pstate) (block : nat) : nat * bool :=
  let (ok, a1) := Alloc.take (ps_alloc st) in
  if ok && reaches_add_segment (trim line) (ps_playlist st)
  then add_segment_block a1 (ps_playlist st) block
  else (block, true).

(** The block along [parse_lines], and whether every write was inside it. *)
Fixpoint parse_lines_block (ls : list string) (st : pstate) (block : nat)
  : nat * bool :=
  match ls with
  | [] => (block, true)
  | l :: rest =>
      let (b1, ok1) := line_block l st block in
      match process_line l st with
      | (HLS_OK, st') =>
          let (b2, ok2) := parse_lines_block rest st' b1 in (b2, ok1 && ok2)
      | _ => (b1, ok1)
      end
  end.

(** The block along one call of [hls_parse_playlist_from_memory] with
    non-NULL [data] and [playlist]. *)
Definition parse_block (a : Alloc.t) (data : string) (base : option string)
    (p : hls_playlist_t) (block : nat) : nat * bool :=
  let (a1, p1) := store_base_url base a p in
  parse_lines_block (lines data) (mk_pstate a1 p1 None) block.

End HlsParser.

(* ================================================================== *)
(** * The playlist refresh loop (src/dmux/hls/hls_demuxer.c) *)
(* ================================================================== *)

Module HlsStream.

(** What one [download_url] call can do: [curl_easy_init] fails, the
    transfer fails ([curl_easy_perform] returns an error code), or the
    transfer completes and the buffer has received the body of the
    reply through [write_callback].  A completed transfer is [DlOk] when
    the server answered with a success status and [DlHttpError] when it
    answered with an error status (404, 500, ...) and the body of that
    reply: the function sets no CURLOPT_FAILONERROR, so
    [curl_easy_perform] returns CURLE_OK for both. *)
Inductive dl_outcome :=
| DlInitFail
| DlPerformFail
| DlOk (body : string)
| DlHttpError (status : nat) (body : string).

(** The network is a function of the number of downloads issued so far
    and of the requested URL. *)
Definition network := nat -> string -> dl_outcome.

Definition download_url (net : network) (clock : nat) (u : string)
  : hls_error_t * string :=
  match net clock u with
  | DlInitFail => (HLS_ERROR_MEMORY, EmptyString)
  | DlPerformFail => (HLS_ERROR_NETWORK, EmptyString)
  | DlOk body => (HLS_OK, body)
  | DlHttpError _ body => (HLS_OK, body)
  end.

(** [hls_playlist_create]: two [calloc]s, capacity 16, everything else zero. *)
Definition hls_playlist_create (a : Alloc.t) : Alloc.t * option hls_playlist_t :=
  let (ok1, a1) := Alloc.take a in
  if ok1 then
    let (ok2, a2) := Alloc.take a1 in
    if ok2 then (a2, Some (mk_playlist HLS_PLAYLIST_UNKNOWN None [] 16 []))
    else (a2, None)
  else (a1, None).

(** The text up to and including the last '/', when there is one
    ([strrchr] followed by a cut after the slash). *)
Fixpoint through_last_slash (s : string) : option string :=
  match s with
  | EmptyString => None
  | String c r =>
      match through_last_slash r with
      | Some p => Some (String c p)
      | None => if Ascii.eqb c "/"%char then Some (String c EmptyString) else None
      end
  end.

(** [hls_resolve_url(base_url, relative_url)]; [None] is NULL. *)
Definition hls_resolve_url (a : Alloc.t) (base rel : option string)
  : Alloc.t * option string :=
  match base, rel with
  | Some b, Some r =>
      let (ok, a1) := Alloc.take a in
      if String.prefix "http://" r || String.prefix "https://" r then
        (a1, if ok then Some r else None)
      else if ok then
        (a1, Some (String.append
                     (match through_last_slash b with
                      | Some p => p
                      | None => b
                      end) r))
      else (a1, None)
  | _, _ => (a, None)
  end.

(** First index [i >= from] whose segment URL equals [u]
    (the [for] loop with [strcmp] and [break]). *)
Fixpoint find_url (u : string) (segs : list hls_segment_t) (from : nat) : option nat :=
  match segs with
  | [] => None
  | s :: rest => if String.eqb (url s) u then Some from else find_url u rest (S from)
  end.

(** Lines 181-193: the starting index of the dispatch. *)
Definition start_index (last_processed_url : option string) (last_count : nat)
    (segs : list hls_segment_t) : nat :=
  let s :=
    match last_processed_url with
    | Some u =>
        match find_url u segs 0 with
        | Some i => i + 1
        | None => 0
        end
    | None => last_count
    end in
  if Nat.ltb (List.length segs) s then List.length segs else s.

Section Loop.

Context {U : Type}.

(** The segment consumer: receives the segment bytes and the user data,
    returns the [int] result and the user data as it leaves it. *)
Definition hls_segment_callback_t := string -> U -> Z * U.

Variable net : network.
Variable callback : hls_segment_callback_t.

(** Local state of [hls_process_stream] and of its surroundings. *)
Record loop_state := mk_loop {
  ls_clock : nat;                         (* downloads issued so far *)
  ls_alloc : Alloc.t;
  ls_user : U;
  ls_last_count : nat;
  ls_last_processed_url : option string
}.

(** The [for] loop over the segments from [start_index] on.  The result
    is [true] when the callback asked to stop ([return HLS_OK]). *)
Fixpoint dispatch (base : option string) (segs : list hls_segment_t)
    (st : loop_state) : bool * loop_state :=
  match segs with
  | [] => (false, st)
  | seg :: rest =>
      let (a1, segment_url) := hls_resolve_url (ls_alloc st) base (Some (url seg)) in
      match segment_url with
      | None =>
          dispatch base rest
            (mk_loop (ls_clock st) a1 (ls_user st) (ls_last_count st)
               (ls_last_processed_url st))
      | Some su =>
          let (ok_buf, a2) := Alloc.take a1 in
          if ok_buf then
            let (seg_err, body) := download_url net (ls_clock st) su in
            let clock' := S (ls_clock st) in
            let deliver :=
              hls_error_eqb seg_err HLS_OK && negb (String.eqb body EmptyString) in
            let (cb, user') :=
              if deliver then callback body (ls_user st) else (0%Z, ls_user st) in
            if negb (Z.eqb cb 0) then
              (true, mk_loop clock' a2 user' (ls_last_count st) None)
            else
              let (ok_dup, a3) := Alloc.take a2 in
              dispatch base rest
                (mk_loop clock' a3 user' (ls_last_count st)
                   (if ok_dup then Some (url seg) else None))
          else
            dispatch base rest
              (mk_loop (ls_clock st) a2 (ls_user st) (ls_last_count st)
                 (ls_last_processed_url st))
      end
  end.

(** One iteration of [while (1)], up to the [usleep]: [Some e] when the
    function returns [e], [None] when it goes on to the next refresh. *)
Definition refresh (playlist_url : string) (st : loop_state)
  : option hls_error_t * loop_state :=
  let with_alloc a c :=
    mk_loop c a (ls_user st) (ls_last_count st) (ls_last_processed_url st) in
  let (ok_buf, a1) := Alloc.take (ls_alloc st) in
  if negb ok_buf then (Some HLS_ERROR_MEMORY, with_alloc a1 (ls_clock st))
  else
    let (err, text) := download_url net (ls_clock st) playlist_url in
    let clock1 := S (ls_clock st) in
    if negb (hls_error_eqb err HLS_OK) then (Some err, with_alloc a1 clock1)
    else
      let (a2, created) := hls_playlist_create a1 in
      match created with
      | None => (Some HLS_ERROR_MEMORY, with_alloc a2 clock1)
      | Some fresh =>
          let (a3, base) :=
            match through_last_slash playlist_url with
            | Some b => let (ok, a') := Alloc.take a2 in
                        (a', if ok then Some b else None)
            | None => (a2, None)
            end in
          match HlsParser.hls_parse_playlist_from_memory a3 (Some text) base (Some fresh) with
          | (HLS_OK, a4, Some playlist) =>
              let start :=
                start_index (ls_last_processed_url st) (ls_last_count st)
                  (segments playlist) in
              let (stop, st') :=
                dispatch (base_url playlist) (skipn start (segments playlist))
                  (with_alloc a4 clock1) in
              if stop then (Some HLS_OK, st')
              else
                (None, mk_loop (ls_clock st') (ls_alloc st') (ls_user st')
                         (segment_count playlist) (ls_last_processed_url st'))
          | (e, a4, _) => (Some e, with_alloc a4 clock1)
          end
      end.

(** The function never leaves [while (1)] by itself: a run is observed
    for a number of refreshes, after which it is either back in the
    caller with an error code or still looping. *)
Inductive run_result :=
| Returned (e : hls_error_t) (st : loop_state)
| Running (st : loop_state).

Fixpoint refresh_loop (n : nat) (playlist_url : string) (st : loop_state)
  : run_result :=
  match n with
  | O => Running st
  | S n' =>
      match refresh playlist_url st with
      | (Some e, st') => Returned e st'
      | (None, st') => refresh_loop n' playlist_url st'
      end
  end.

End Loop.

Arguments mk_loop {U}.
Arguments ls_clock {U}.
Arguments ls_alloc {U}.
Arguments ls_user {U}.
Arguments ls_last_count {U}.
Arguments ls_last_processed_url {U}.
Arguments Returned {U}.
Arguments Running {U}.

(** [hls_process_stream(demuxer, playlist_url, callback, user_data)],
    observed for [n] refreshes.  [demuxer] tells whether the pointer is
    non-NULL; a NULL [playlist_url] or [callback] is [None]. *)
Definition hls_process_stream {U : Type} (n : nat) (net : network) (a : Alloc.t)
    (demuxer : bool) (playlist_url : option string)
    (callback : option (string -> U -> Z * U)) (user_data : U)
  : run_result :=
  let st0 := mk_loop 0 a user_data 0 None in
  match demuxer, playlist_url, callback with
  | true, Some pu, Some cb => refresh_loop net cb n pu st0
  | _, _, _ => Returned HLS_ERROR_PARSE st0
  end.

End HlsStream.

(* ================================================================== *)
(** * The parameter-set / slice state machine (codecs/simple_h264) *)
(* ================================================================== *)

Module SimpleH264.

Open Scope Z_scope.

Inductive simple_h264_result_t :=
| SIMPLE_H264_OK
| SIMPLE_H264_ERROR
| SIMPLE_H264_NEED_MORE_DATA
| SIMPLE_H264_FRAME_READY
| SIMPLE_H264_HEADERS_READY
| SIMPLE_H264_PARAM_SET_ERROR.

(** [simple_h264_nal_type_t], by value. *)
Definition SIMPLE_H264_NAL_UNKNOWN : Z := 0.
Definition SIMPLE_H264_NAL_SLICE : Z := 1.
Definition SIMPLE_H264_NAL_IDR_SLICE : Z := 5.
Definition SIMPLE_H264_NAL_SEI : Z := 6.
Definition SIMPLE_H264_NAL_SPS : Z := 7.
Definition SIMPLE_H264_NAL_PPS : Z := 8.
Definition SIMPLE_H264_NAL_AUD : Z := 9.

(** [struct simple_h264_decoder].  The [uint8_t] flags and the
    [uint32_t] dimensions are [Z]; [frame_buffer] tells whether the
    pointer is non-NULL. *)
Record simple_h264_decoder_t := mk_decoder {
  width : Z;
  height : Z;
  profile_idc : Z;
  level_idc : Z;
  sps_valid : Z;
  pps_valid : Z;
  frame_buffer : bool;
  frame_buffer_size : Z;
  initialized : Z
}.

(** [simple_h264_frame_t]: the planes are offsets into the frame
    buffer; the pixel values written to them are not part of the
    embedding. *)
Record simple_h264_frame_t := mk_frame {
  y_plane : Z;
  u_plane : Z;
  v_plane : Z;
  frame_width : Z;
  frame_height : Z;
  y_stride : Z;
  uv_stride : Z
}.

Definition u8 (b : byte) : Z := Z.of_N (Byte.to_N b).
Definition wrap32 (z : Z) : Z := z mod 2 ^ 32.

(** [ptr[i]] for the read position [ptr] inside [data]. *)
Definition byte_at (data : list byte) (i : nat) : Z := u8 (nth i data x00).

(** [(byte >> (7 - (bit_pos % 8))) & 1] on [ptr[bit_pos / 8]]. *)
Definition bit_at (data : list byte) (ptr bit_pos : nat) : Z :=
  Z.land (Z.shiftr (byte_at data (ptr + bit_pos / 8))
            (7 - Z.of_nat (bit_pos mod 8))) 1.

(** [while (bit_pos < *bits_left)]: count the zero bits before the
    first one bit.  [fuel] is the number of bits still in range. *)
Fixpoint count_zeros (data : list byte) (ptr fuel bit_pos : nat) : nat :=
  match fuel with
  | O => bit_pos
  | S f =>
      if Z.eqb (bit_at data ptr bit_pos) 0
      then count_zeros data ptr f (S bit_pos)
      else bit_pos
  end.

(** The [for] loop reading [n] value bits from [bit_pos] on. *)
Fixpoint read_bits (data : list byte) (ptr bits_left n bit_pos : nat) (value : Z)
  : Z * nat :=
  match n with
  | O => (value, bit_pos)
  | S n' =>
      if Nat.leb bits_left bit_pos then (value, bit_pos)
      else read_bits data ptr bits_left n' (S bit_pos)
             (Z.lor (wrap32 (Z.shiftl value 1)) (bit_at data ptr bit_pos))
  end.

(** [read_ue_golomb(&ptr, &bits_left)]: the value and the advanced
    [(ptr, bits_left)].  The result is [(1 << leading_zeros) - 1 + value]
    as a [uint32_t]; C leaves the shift undefined from 31 leading zeros
    on, where the embedding takes the value modulo 2^32. *)
Definition read_ue_golomb (data : list byte) (ptr bits_left : nat)
  : Z * nat * nat :=
  if Nat.eqb bits_left 0 then (0, ptr, bits_left)
  else
    let leading_zeros := count_zeros data ptr bits_left 0 in
    if Nat.ltb bits_left (leading_zeros + leading_zeros + 1) then (0, ptr, bits_left)
    else
      let (value, bit_pos) :=
        read_bits data ptr bits_left leading_zeros (S leading_zeros) 0 in
      (wrap32 (Z.shiftl 1 (Z.of_nat leading_zeros) - 1 + value),
       (ptr + bit_pos / 8)%nat, (bits_left - bit_pos)%nat).

(** The outcome of [parse_sps]: its [int] result and the decoder. *)
Definition parse_sps (d : simple_h264_decoder_t) (data : list byte)
  : bool * simple_h264_decoder_t :=
  let size := List.length data in
  if Nat.ltb size 4 then (false, d)
  else
    let profile := byte_at data 1 in
    let level := byte_at data 3 in
    let ptr := 4%nat in
    let bits_left := ((size - 1) * 8 - 24)%nat in
    let '(_, ptr, bits_left) := read_ue_golomb data ptr bits_left in
    if Z.eqb profile 66 then
      let '(_, ptr, bits_left) := read_ue_golomb data ptr bits_left in
      let '(poc_type, ptr, bits_left) := read_ue_golomb data ptr bits_left in
      let '(_, ptr, bits_left) :=
        if Z.eqb poc_type 0 then read_ue_golomb data ptr bits_left
        else (0, ptr, bits_left) in
      let '(_, ptr, bits_left) := read_ue_golomb data ptr bits_left in
      let '(ptr, bits_left) :=
        if Nat.ltb 0 bits_left then
          ((ptr + (if Nat.eqb (bits_left mod 8) 0 then 0 else 1))%nat,
           (bits_left - bits_left mod 8)%nat)
        else (ptr, bits_left) in
      let '(w, ptr, bits_left) := read_ue_golomb data ptr bits_left in
      let width_mbs := wrap32 (w + 1) in
      let '(h, _, _) := read_ue_golomb data ptr bits_left in
      let height_mbs := wrap32 (h + 1) in
      (true, mk_decoder (wrap32 (width_mbs * 16)) (wrap32 (height_mbs * 16))
               profile level 1 (pps_valid d)
               (frame_buffer d) (frame_buffer_size d) (initialized d))
    else
      (true, mk_decoder 1920 1080 profile level 1 (pps_valid d)
               (frame_buffer d) (frame_buffer_size d) (initialized d)).

Definition parse_pps (d : simple_h264_decoder_t) (data : list byte)
  : bool * simple_h264_decoder_t :=
  (true, mk_decoder (width d) (height d) (profile_idc d) (level_idc d)
           (sps_valid d) 1 (frame_buffer d) (frame_buffer_size d) (initialized d)).

(** [simple_h264_create]: a zeroed decoder. *)
Definition simple_h264_create : simple_h264_decoder_t :=
  mk_decoder 0 0 0 0 0 0 false 0 0.

(** [data[0] & 0x1F]. *)
Definition simple_h264_get_nal_type (data : list byte) : Z :=
  Z.land (byte_at data 0) 31.

Definition simple_h264_is_parameter_set (nal_type : Z) : bool :=
  Z.eqb nal_type SIMPLE_H264_NAL_SPS || Z.eqb nal_type SIMPLE_H264_NAL_PPS.

(** The slice case of [simple_h264_decode]; [frame] tells whether the
    output pointer is non-NULL. *)
Definition decode_slice (a : Alloc.t) (d : simple_h264_decoder_t) (frame : bool)
  : simple_h264_result_t * Alloc.t * simple_h264_decoder_t * option simple_h264_frame_t :=
  if Z.eqb (sps_valid d) 0 || Z.eqb (pps_valid d) 0 then
    (SIMPLE_H264_PARAM_SET_ERROR, a, d, None)
  else if frame && Z.ltb 0 (width d) && Z.ltb 0 (height d) then
    let needed_size := wrap32 (wrap32 (width d * height d) * 3) / 2 in
    let '(a1, d1) :=
      if negb (frame_buffer d) || Z.ltb (frame_buffer_size d) needed_size then
        let (ok, a') := Alloc.take a in
        (a', mk_decoder (width d) (height d) (profile_idc d) (level_idc d)
               (sps_valid d) (pps_valid d) ok needed_size (initialized d))
      else (a, d) in
    if frame_buffer d1 then
      let u := wrap32 (width d * height d) in
      (SIMPLE_H264_FRAME_READY, a1, d1,
       Some (mk_frame 0 u (u + u / 4) (width d) (height d) (width d) (width d / 2)))
    else (SIMPLE_H264_OK, a1, d1, None)
  else (SIMPLE_H264_OK, a, d, None).

(** The [switch] of [simple_h264_decode] on a non-NULL decoder and a
    non-empty NAL unit. *)
Definition decode_nal (a : Alloc.t) (d : simple_h264_decoder_t) (data : list byte)
    (frame : bool)
  : simple_h264_result_t * Alloc.t * simple_h264_decoder_t * option simple_h264_frame_t :=
  let nal_type := simple_h264_get_nal_type data in
  if Z.eqb nal_type SIMPLE_H264_NAL_SPS then
    let (ok, d') := parse_sps d data in
    ((if ok then SIMPLE_H264_HEADERS_READY else SIMPLE_H264_PARAM_SET_ERROR), a, d', None)
  else if Z.eqb nal_type SIMPLE_H264_NAL_PPS then
    let (ok, d') := parse_pps d data in
    ((if ok then SIMPLE_H264_HEADERS_READY else SIMPLE_H264_PARAM_SET_ERROR), a, d', None)
  else if Z.eqb nal_type SIMPLE_H264_NAL_IDR_SLICE || Z.eqb nal_type SIMPLE_H264_NAL_SLICE then
    decode_slice a d frame
  else (SIMPLE_H264_OK, a, d, None).

(** [simple_h264_decode(decoder, data, data_size, frame)]: [None] is a
    NULL [decoder] or [data]; [data_size] is the length of [data]. *)
Definition simple_h264_decode (a : Alloc.t) (decoder : option simple_h264_decoder_t)
    (data : option (list byte)) (frame : bool)
  : simple_h264_result_t * Alloc.t * option simple_h264_decoder_t
    * option simple_h264_frame_t :=
  match decoder, data with
  | Some d, Some (b :: bs) =>
      let '(r, a', d', f) := decode_nal a d (b :: bs) frame in
      (r, a', Some d', f)
  | _, _ => (SIMPLE_H264_ERROR, a, decoder, None)
  end.

End SimpleH264.

(* ================================================================== *)
(** * Variant selection (src/resolver/twitch.c) *)
(* ================================================================== *)

Module Twitch.

Open Scope Z_scope.

Definition INT_MAX : Z := 2147483647.

(** [struct variant] of [pick_lowest_variant_from_master]: the resolved
    URI ([None] when [resolve_relative] returned NULL) and the two [int]
    attributes, 0 when the attribute is absent from the tag. *)
Record variant := mk_variant {
  uri : option string;
  bandwidth : Z;
  height : Z
}.

Definition no_variant : variant := mk_variant None 0 0.

(** [list[i]]. *)
Definition at_index (list : list variant) (i : nat) : variant :=
  nth i list no_variant.

(** [list[i].height ? list[i].height : INT_MAX]. *)
Definition effective_height (v : variant) : Z :=
  if Z.eqb (height v) 0 then INT_MAX else height v.

(** The body of the selection loop at index [i], lines 176-182. *)
Definition select_step (list : list variant) (i best_idx : nat) : nat :=
  let h1 := effective_height (at_index list i) in
  let h0 := effective_height (at_index list best_idx) in
  if Z.ltb h1 h0 then i
  else if Z.eqb h1 h0 then
    if negb (Z.eqb (bandwidth (at_index list i)) 0)
       && negb (Z.eqb (bandwidth (at_index list best_idx)) 0)
       && Z.ltb (bandwidth (at_index list i)) (bandwidth (at_index list best_idx))
    then i else best_idx
  else best_idx.

(** [for (i = ...; i < n; i++)], with [k] iterations left. *)
Fixpoint select_loop (list : list variant) (k i best_idx : nat) : nat :=
  match k with
  | O => best_idx
  | S k' => select_loop list k' (S i) (select_step list i best_idx)
  end.

(** Lines 172-183 on the array built by the scan of the master text:
    [None] is the [n == 0] exit, otherwise the final [best_idx]. *)
Definition best_index (list : list variant) : option nat :=
  match list with
  | [] => None
  | _ :: _ => Some (select_loop list (List.length list - 1) 1 0)
  end.

(** The value returned by [pick_lowest_variant_from_master] once the
    array is built: the chosen entry's URI. *)
Definition pick_lowest_variant (list : list variant) : option string :=
  match best_index list with
  | None => None
  | Some i => uri (at_index list i)
  end.

End Twitch.

(* ================================================================== *)
(** * Segment consumer of src/main.c: routing and NAL extraction *)
(* ================================================================== *)

Module Player.

Import SimpleH264.
Open Scope Z_scope.

(** [int] and [uint64_t] arithmetic. *)
Definition sint32 (z : Z) : Z := (z + 2 ^ 31) mod 2 ^ 32 - 2 ^ 31.
Definition wrap64 (z : Z) : Z := z mod 2 ^ 64.

(** The globals and function-local statics of main.c that the segment
    consumer touches, the outcomes of its collaborators, and the record
    of what was handed to the decoder.
    - [video], [rgb_buffer]: whether the pointer is non-NULL;
    - [last_wh], [hls_last_wh], [last_wh_all]: the static [last_w]/[last_h]
      pairs of [process_h264_nal_unit], of the whole-segment path and of
      the whole-PES path;
    - [video_creates]: outcomes of [video_create], exhausted = success;
    - [polls]: results of [video_poll], exhausted = 0 (no quit);
    - [times]: readings of [get_time_us], exhausted = 0;
    - [fed]: the buffers passed to [simple_h264_decode], oldest first. *)
Record world := mk_world {
  h264_decoder : option simple_h264_decoder_t;
  use_custom_decoder : Z;
  should_quit_hls : bool;
  video : bool;
  rgb_buffer : bool;
  last_wh : Z * Z;
  hls_last_wh : Z * Z;
  last_wh_all : Z * Z;
  frames_displayed : Z;
  last_frame_time : Z;
  frame_duration_us : Z;
  allocs : Alloc.t;
  video_creates : list bool;
  polls : list bool;
  times : list Z;
  fed : list (list byte)
}.

Definition set_decoder d a f w :=
  mk_world d (use_custom_decoder w) (should_quit_hls w) (video w) (rgb_buffer w)
    (last_wh w) (hls_last_wh w) (last_wh_all w) (frames_displayed w)
    (last_frame_time w) (frame_duration_us w) a (video_creates w) (polls w)
    (times w) f.

Definition set_quit w :=
  mk_world (h264_decoder w) (use_custom_decoder w) true (video w) (rgb_buffer w)
    (last_wh w) (hls_last_wh w) (last_wh_all w) (frames_displayed w)
    (last_frame_time w) (frame_duration_us w) (allocs w) (video_creates w)
    (polls w) (times w) (fed w).

Definition set_video v vc w :=
  mk_world (h264_decoder w) (use_custom_decoder w) (should_quit_hls w) v
    (rgb_buffer w) (last_wh w) (hls_last_wh w) (last_wh_all w)
    (frames_displayed w) (last_frame_time w) (frame_duration_us w) (allocs w)
    vc (polls w) (times w) (fed w).

Definition set_polls p w :=
  mk_world (h264_decoder w) (use_custom_decoder w) (should_quit_hls w) (video w)
    (rgb_buffer w) (last_wh w) (hls_last_wh w) (last_wh_all w)
    (frames_displayed w) (last_frame_time w) (frame_duration_us w) (allocs w)
    (video_creates w) p (times w) (fed w).

Definition set_rgb r a l1 l2 l3 w :=
  mk_world (h264_decoder w) (use_custom_decoder w) (should_quit_hls w) (video w)
    r l1 l2 l3 (frames_displayed w) (last_frame_time w) (frame_duration_us w) a
    (video_creates w) (polls w) (times w) (fed w).

Definition set_shown n t ts w :=
  mk_world (h264_decoder w) (use_custom_decoder w) (should_quit_hls w) (video w)
    (rgb_buffer w) (last_wh w) (hls_last_wh w) (last_wh_all w) n t
    (frame_duration_us w) (allocs w) (video_creates w) (polls w) ts (fed w).

Definition set_allocs a w :=
  mk_world (h264_decoder w) (use_custom_decoder w) (should_quit_hls w) (video w)
    (rgb_buffer w) (last_wh w) (hls_last_wh w) (last_wh_all w)
    (frames_displayed w) (last_frame_time w) (frame_duration_us w) a
    (video_creates w) (polls w) (times w) (fed w).

(** [simple_h264_decode(h264_decoder, buf, len, &frame)] on the global
    decoder, with a fresh zeroed [frame]. *)
Definition decode (buf : list byte) (w : world)
  : simple_h264_result_t * option simple_h264_frame_t * world :=
  let '(r, a, d, f) :=
    simple_h264_decode (allocs w) (h264_decoder w) (Some buf) true in
  (r, f, set_decoder d a (fed w ++ [buf]) w).

(** [result == SIMPLE_H264_FRAME_READY && frame.y_plane && frame.width > 0
    && frame.height > 0]. *)
Definition picture (r : simple_h264_result_t) (f : option simple_h264_frame_t)
  : option simple_h264_frame_t :=
  match r, f with
  | SIMPLE_H264_FRAME_READY, Some fr =>
      if Z.ltb 0 (frame_width fr) && Z.ltb 0 (frame_height fr) then Some fr else None
  | _, _ => None
  end.

(** [init_video_output]: [video = video_create(...)], success iff non-NULL. *)
Definition init_video_output (w : world) : bool * world :=
  match video_creates w with
  | [] => (true, set_video true [] w)
  | ok :: rest => (ok, set_video ok rest w)
  end.

(** [video && video_poll(video)]. *)
Definition video_poll (w : world) : bool * world :=
  if video w then
    match polls w with
    | [] => (false, w)
    | q :: rest => (q, set_polls rest w)
    end
  else (false, w).

Definition get_time_us (ts : list Z) : Z * list Z :=
  match ts with
  | [] => (0, [])
  | t :: rest => (t, rest)
  end.

(** [video_draw], [frames_displayed++], the two clock readings around
    the [usleep], and the quit poll that follows.  The drawing itself and
    the sleep leave the state alone. *)
Definition present (w : world) : bool * world :=
  let (now, ts1) := get_time_us (times w) in
  let (after, ts2) := get_time_us ts1 in
  video_poll (set_shown (sint32 (frames_displayed w + 1)) after ts2 w).

Definition same_dims (l : Z * Z) (f : simple_h264_frame_t) : bool :=
  Z.eqb (fst l) (sint32 (frame_width f)) && Z.eqb (snd l) (sint32 (frame_height f)).

Definition dims (f : simple_h264_frame_t) : Z * Z :=
  (sint32 (frame_width f), sint32 (frame_height f)).

(** The RGB buffer of [process_h264_nal_unit]: reallocated when missing
    or when the picture size changed; [false] when [malloc] failed. *)
Definition rgb_for_nal (f : simple_h264_frame_t) (w : world) : bool * world :=
  if negb (rgb_buffer w) || negb (same_dims (last_wh w) f) then
    let (ok, a) := Alloc.take (allocs w) in
    (ok, set_rgb ok a (if ok then dims f else last_wh w)
           (hls_last_wh w) (last_wh_all w) w)
  else (true, w).

(** The same for the whole-segment path (statics [hls_last_w/h]). *)
Definition rgb_for_segment (f : simple_h264_frame_t) (w : world) : bool * world :=
  if negb (rgb_buffer w) || negb (same_dims (hls_last_wh w) f) then
    let (ok, a) := Alloc.take (allocs w) in
    (ok, set_rgb ok a (last_wh w) (if ok then dims f else hls_last_wh w)
           (last_wh_all w) w)
  else (true, w).

(** The same for the whole-PES path, which records the size even when
    [malloc] failed. *)
Definition rgb_for_pes (f : simple_h264_frame_t) (w : world) : bool * world :=
  if negb (rgb_buffer w) || negb (same_dims (last_wh_all w) f) then
    let (ok, a) := Alloc.take (allocs w) in
    (ok, set_rgb ok a (last_wh w) (hls_last_wh w) (dims f) w)
  else (true, w).

(** [process_h264_nal_unit(nal_data, nal_len, debug_prefix)]: 1 when a
    frame was displayed, 0 otherwise. *)
Definition process_h264_nal_unit (nal : list byte) (w : world) : Z * world :=
  match nal, h264_decoder w with
  | [], _ => (0, w)
  | _, None => (0, w)
  | _, Some _ =>
      let '(result, frame, w1) := decode nal w in
      match picture result frame with
      | None => (0, w1)
      | Some f =>
          let (ok_video, w2) :=
            if video w1 then (true, w1) else init_video_output w1 in
          if negb ok_video then (0, w2)
          else
            let (ok_rgb, w3) := rgb_for_nal f w2 in
            if negb ok_rgb then (0, w3)
            else
              let (quit, w4) := present w3 in
              (1, if quit then set_quit w4 else w4)
      end
  end.

(** ** Annex-B scanning *)

(** [p[0] == 0 && p[1] == 0 && p[2] == 1]. *)
Definition is_sc3 (l : list byte) : bool :=
  match l with
  | x00 :: x00 :: x01 :: _ => true
  | _ => false
  end.

(** [p[0] == 0 && p[1] == 0 && p[2] == 0 && p[3] == 1]. *)
Definition is_sc4 (l : list byte) : bool :=
  match l with
  | x00 :: x00 :: x00 :: x01 :: _ => true
  | _ => false
  end.

(** [p + k < e] for the position whose remaining bytes are [l]. *)
Definition room (k : nat) (l : list byte) : bool := Nat.ltb k (List.length l).

(** The quick scan setting [has_start_codes]. *)
Fixpoint has_start_codes (l : list byte) : bool :=
  match l with
  | [] => false
  | _ :: t => if room 3 l && is_sc3 l then true else has_start_codes t
  end.

(** The search for a start code from the position whose remaining bytes
    are [l]: the offset of the first NAL byte ([sc + sc_len], or
    [start]), [None] when the loop ends with [sc == NULL]. *)
Fixpoint find_start (l : list byte) : option nat :=
  match l with
  | [] => None
  | _ :: t =>
      if room 3 l then
        if is_sc3 l then Some 3%nat
        else if room 4 l && is_sc4 l then Some 4%nat
        else option_map S (find_start t)
      else None
  end.

(** The search for the end of the NAL from [nal_start]: the distance
    [next - nal_start]. *)
Fixpoint find_next (l : list byte) : nat :=
  match l with
  | [] => O
  | _ :: t =>
      if room 3 l then
        if is_sc3 l || (room 4 l && is_sc4 l) then O
        else S (find_next t)
      else O
  end.

(** The NAL units with [nal_len > 0] met by one pass of
    [while (s + 3 < e)], in scan order.  Each iteration moves [s] forward
    by at least three bytes, [fuel] bounds the iterations. *)
Fixpoint annexb_scan (fuel : nat) (s : list byte) : list (list byte) :=
  match fuel with
  | O => []
  | S fuel' =>
      if room 3 s then
        match find_start s with
        | None => []
        | Some off =>
            let from_nal := skipn off s in
            let nal_len := find_next from_nal in
            let rest := annexb_scan fuel' (skipn nal_len from_nal) in
            if Nat.ltb 0 nal_len then firstn nal_len from_nal :: rest else rest
        end
      else []
  end.

Definition annexb_units (buf : list byte) : list (list byte) :=
  annexb_scan (List.length buf) buf.

(** ** Length-prefixed scanning *)

(** [(p[0] << 24) | (p[1] << 16) | (p[2] << 8) | p[3]]. *)
Definition be32 (l : list byte) : Z :=
  Z.lor (Z.lor (Z.lor (Z.shiftl (byte_at l 0) 24) (Z.shiftl (byte_at l 1) 16))
           (Z.shiftl (byte_at l 2) 8)) (byte_at l 3).

(** The NAL units met by one pass of [while (p + 4 <= e)]. *)
Fixpoint lenpref_scan (fuel : nat) (p : list byte) : list (list byte) :=
  match fuel with
  | O => []
  | S fuel' =>
      if Nat.leb 4 (List.length p) then
        let nal_len := Z.to_nat (be32 p) in
        let body := skipn 4 p in
        if Nat.eqb nal_len 0 || Nat.ltb (List.length body) nal_len then []
        else firstn nal_len body :: lenpref_scan fuel' (skipn nal_len body)
      else []
  end.

Definition lenpref_units (buf : list byte) : list (list byte) :=
  lenpref_scan (List.length buf) buf.

(** ** The two passes *)

Definition get_nal_unit_type (nal : list byte) : Z := simple_h264_get_nal_type nal.
Definition is_parameter_set (nal_type : Z) : bool := simple_h264_is_parameter_set nal_type.

(** First pass: parameter sets only, results ignored. *)
Fixpoint feed_parameter_sets (units : list (list byte)) (w : world) : world :=
  match units with
  | [] => w
  | nal :: rest =>
      if is_parameter_set (get_nal_unit_type nal)
      then feed_parameter_sets rest (snd (process_h264_nal_unit nal w))
      else feed_parameter_sets rest w
  end.

(** How a second pass reacts to a displayed frame. *)
Inductive pass_mode :=
| PesFlush      (* lines 437-466 and 485-498: poll, return 1 on quit *)
| FinalFlush    (* lines 573-598: result ignored *)
| Fallback.     (* lines 634-660: poll, return 1 on quit, else break *)

(** Second pass: everything that is not a parameter set.  [Some r] when
    the callback returns [r] from inside the pass. *)
Fixpoint feed_others (mode : pass_mode) (units : list (list byte)) (w : world)
  : option Z * world :=
  match units with
  | [] => (None, w)
  | nal :: rest =>
      if is_parameter_set (get_nal_unit_type nal) then feed_others mode rest w
      else
        let (shown, w1) := process_h264_nal_unit nal w in
        match mode with
        | FinalFlush => feed_others mode rest w1
        | PesFlush =>
            if Z.eqb shown 0 then feed_others mode rest w1
            else
              let (quit, w2) := video_poll w1 in
              if quit then (Some 1, set_quit w2) else feed_others mode rest w2
        | Fallback =>
            if Z.eqb shown 0 then feed_others mode rest w1
            else
              let (quit, w2) := video_poll w1 in
              if quit then (Some 1, set_quit w2) else (None, w2)
        end
  end.

Definition two_pass (mode : pass_mode) (units : list (list byte)) (w : world)
  : option Z * world :=
  feed_others mode units (feed_parameter_sets units w).

(** Lines 604-661: the raw elementary-stream fallback. *)
Definition fallback_extract (data : list byte) (w : world) : option Z * world :=
  two_pass Fallback (annexb_units data) w.

(** Lines 392-499: format detection and extraction on an assembled PES
    payload. *)
Definition pes_extract (pes_buf : list byte) (w : world) : option Z * world :=
  if has_start_codes pes_buf
  then two_pass PesFlush (annexb_units pes_buf) w
  else two_pass PesFlush (lenpref_units pes_buf) w.

(** Lines 528-602: the flush after the last packet, Annex-B only. *)
Definition final_flush (pes_buf : list byte) (w : world) : world :=
  match pes_buf with
  | [] => w
  | _ =>
      if has_start_codes pes_buf
      then snd (two_pass FinalFlush (annexb_units pes_buf) w)
      else w
  end.

(** ** TS demultiplexing and PES reassembly (lines 297-602) *)

(** The search for a plausible sync offset: three sync bytes spaced
    188 bytes apart, tried at offsets below 188 while [off + 188 * 3]
    does not exceed [size] (sizes are taken below 2^31, the range where
    the cast [(int)size] keeps the value). *)
Fixpoint sync_search (seg : list byte) (fuel off : nat) : option nat :=
  match fuel with
  | O => None
  | S fuel' =>
      if Nat.ltb (List.length seg) (off + 188 * 3) then None
      else if Z.eqb (byte_at seg off) 0x47
              && Z.eqb (byte_at seg (off + 188)) 0x47
              && Z.eqb (byte_at seg (off + 376)) 0x47
      then Some off
      else sync_search seg fuel' (S off)
  end.

(** [sync_offset] after [if (sync_offset < 0) sync_offset = 0]. *)
Definition sync_offset (seg : list byte) : nat :=
  match sync_search seg 188 0 with
  | Some off => off
  | None => O
  end.

(** [video_pid] (-1 while undecided) and the PES accumulation buffer. *)
Record ts_state := mk_ts {
  video_pid : Z;
  pes_buf : list byte
}.

(** What the body of the packet loop does to the loop. *)
Inductive ts_flow :=
| TsContinue (st : ts_state) (w : world)
| TsBreak (w : world)
| TsReturn (r : Z) (w : world).

(** Lines 353-391: the assembled PES payload fed whole to the decoder. *)
Definition feed_whole_pes (buf : list byte) (w : world) : option Z * world :=
  let '(result_all, frame_all, w1) := decode buf w in
  match picture result_all frame_all with
  | None => (None, w1)
  | Some f =>
      let w2 := if video w1 then w1 else snd (init_video_output w1) in
      let (ok_rgb, w3) := rgb_for_pes f w2 in
      if ok_rgb then
        let (quit, w4) := present w3 in
        if quit then (Some 1, set_quit w4) else (None, w4)
      else (None, w3)
  end.

(** Lines 339-502: the flush at a unit start when the buffer holds data. *)
Definition flush_pes (buf : list byte) (w : world) : option Z * world :=
  let (r, w1) := feed_whole_pes buf w in
  match r with
  | Some v => (Some v, w1)
  | None => pes_extract buf w1
  end.

(** One 188-byte packet [pkt] of the loop at lines 311-526. *)
Definition ts_packet (pkt : list byte) (st : ts_state) (w : world) : ts_flow :=
  if negb (Z.eqb (byte_at pkt 0) 0x47) then TsContinue st w
  else
    let payload_unit_start := negb (Z.eqb (Z.land (byte_at pkt 1) 0x40) 0) in
    let pid := Z.lor (Z.shiftl (Z.land (byte_at pkt 1) 0x1F) 8) (byte_at pkt 2) in
    let afc := Z.shiftr (Z.land (byte_at pkt 3) 0x30) 4 in
    if Z.eqb afc 2 then TsContinue st w
    else
      let payload_offset :=
        if Z.eqb afc 3 then (5 + Z.to_nat (byte_at pkt 4))%nat else 4%nat in
      if Nat.leb 188 payload_offset then TsContinue st w
      else
        let payload := firstn (188 - payload_offset) (skipn payload_offset pkt) in
        let payload_len := (188 - payload_offset)%nat in
        let pes_start := is_sc3 payload in
        let pid_now :=
          if Z.eqb (video_pid st) (-1) && payload_unit_start
             && Nat.leb 6 payload_len && pes_start
             && Z.eqb (Z.land (byte_at payload 3) 0xF0) 0xE0
          then pid else video_pid st in
        if negb (Z.eqb pid_now (-1)) && Z.eqb pid pid_now then
          let '(r, buf1, w1) :=
            if payload_unit_start && negb (Nat.eqb (List.length (pes_buf st)) 0) then
              let (r, w') := flush_pes (pes_buf st) w in (r, [], w')
            else (None, pes_buf st, w) in
          match r with
          | Some v => TsReturn v w1
          | None =>
              if payload_unit_start && Nat.leb 9 payload_len && pes_start then
                let data_start := (9 + Z.to_nat (byte_at payload 8))%nat in
                if Nat.leb data_start payload_len then
                  let (ok, a) := Alloc.take (allocs w1) in
                  if ok then
                    TsContinue (mk_ts pid_now (buf1 ++ skipn data_start payload))
                      (set_allocs a w1)
                  else TsBreak (set_allocs a w1)
                else TsContinue (mk_ts pid_now buf1) w1
              else
                let (ok, a) := Alloc.take (allocs w1) in
                if ok then TsContinue (mk_ts pid_now (buf1 ++ payload)) (set_allocs a w1)
                else TsBreak (set_allocs a w1)
          end
        else TsContinue (mk_ts pid_now (pes_buf st)) w
  .

(** [for (pos = sync_offset; pos + 188 <= size; pos += 188)] on the
    bytes [seg] that remain from [pos]; the result carries the buffer
    left for the final flush. *)
Fixpoint ts_loop (fuel : nat) (seg : list byte) (st : ts_state) (w : world)
  : option Z * list byte * world :=
  match fuel with
  | O => (None, pes_buf st, w)
  | S fuel' =>
      if Nat.leb 188 (List.length seg) then
        match ts_packet (firstn 188 seg) st w with
        | TsContinue st' w' => ts_loop fuel' (skipn 188 seg) st' w'
        | TsBreak w' => (None, [], w')
        | TsReturn r w' => (Some r, [], w')
        end
      else (None, pes_buf st, w)
  end.

Definition ts_demux (off : nat) (data : list byte) (w : world) : option Z * world :=
  let '(r, buf, w1) :=
    ts_loop (List.length data) (skipn off data) (mk_ts (-1) []) w in
  match r with
  | Some v => (Some v, w1)
  | None => (None, final_flush buf w1)
  end.

(** ** Routing of a segment (lines 293-309 and 603) *)

Inductive route :=
| RouteTs (off : nat)    (* TS demultiplexing from this sync offset *)
| RouteFallback.         (* raw bytes to the Annex-B fallback *)

(** [if (size >= 188 && seg[0] == 0x47) ... else ...]. *)
Definition segment_route (data : list byte) : route :=
  if Nat.leb 188 (List.length data) && Z.eqb (byte_at data 0) 0x47
  then RouteTs (sync_offset data)
  else RouteFallback.

Definition demux_segment (data : list byte) (w : world) : option Z * world :=
  match segment_route data with
  | RouteTs off => ts_demux off data w
  | RouteFallback => fallback_extract data w
  end.

(** [hls_segment_callback(data, size, user_data)].  The branch for
    [use_custom_decoder == 2] exists only under [USE_MPEG4] and is
    empty otherwise. *)
Definition hls_segment_callback (data : list byte) (w : world) : Z * world :=
  let (quit0, w0) := video_poll w in
  if quit0 then (1, set_quit w0)
  else if should_quit_hls w0 then (1, w0)
  else if Z.eqb (use_custom_decoder w0) 1 then
    let '(result, frame, w1) := decode data w0 in
    match picture result frame with
    | Some f =>
        let (ok_video, w2) :=
          if video w1 then (true, w1) else init_video_output w1 in
        if negb ok_video then (-1, w2)
        else
          let (ok_rgb, w3) := rgb_for_segment f w2 in
          if negb ok_rgb then (-1, w3)
          else
            let (quit, w4) := present w3 in
            if quit then (1, set_quit w4) else (0, w4)
    | None =>
        let (r, w2) := demux_segment data w1 in
        (match r with Some v => v | None => 0 end, w2)
    end
  else (0, w0).

End Player.

(* ================================================================== *)
(** * Frame pacing and the frame-skip policy of the playback loop *)
(* ================================================================== *)

Module Pacing.

Open Scope Z_scope.

Definition INT_MAX : Z := 2147483647.
Definition INT_MIN : Z := -2147483648.

(** [int] arithmetic keeps the low 32 bits in two's complement (what
    the compiled code does where C leaves overflow undefined);
    [uint64_t] arithmetic is modulo 2^64. *)
Definition sint32 (z : Z) : Z := (z + 2 ^ 31) mod 2 ^ 32 - 2 ^ 31.
Definition wrap64 (z : Z) : Z := z mod 2 ^ 64.

(** Build configuration: [-DFRAMESKIP_AMOUNT=n] and [-DDISABLE_FRAMESKIP]. *)
Record config := mk_config {
  FRAMESKIP_AMOUNT : Z;
  DISABLE_FRAMESKIP : bool
}.

(** The [#ifndef FRAMESKIP_AMOUNT] default, which is also the Makefile's. *)
Definition default_config : config := mk_config 3 false.

(** The timing globals of the main file. *)
Record pacing := mk_pacing {
  last_frame_time : Z;
  frame_duration_us : Z;
  frames_dropped : Z;
  frames_displayed : Z;
  skip_remaining : Z;
  should_quit : bool
}.

(** What the surroundings answer while one decoded frame is handled:
    - [current_time]: [get_time_us()] taken when the frame is received;
    - [shown_time]: [get_time_us()] stored in [last_frame_time];
    - [setup_ok]: the scaler, RGB buffer and video output block of
      src/main.c (lines 1368-1405) went through without a [break];
    - [poll_after_draw]: [video_poll] right after [video_draw];
    - [poll_fifth]: [video_poll] consulted when
      [frames_displayed % 5 == 0]. *)
Record frame_env := mk_env {
  current_time : Z;
  shown_time : Z;
  setup_ok : bool;
  poll_after_draw : bool;
  poll_fifth : bool
}.

Inductive frame_outcome :=
| Dropped          (* counted as dropped, [continue] *)
| Displayed        (* drawn, the loop goes on *)
| DisplayedQuit    (* drawn, then [should_quit = 1; break] *)
| Abandoned.       (* [break] before anything was drawn *)

(** [if (FRAMESKIP_AMOUNT > 0 && skip_remaining > 0)] under
    [#ifndef DISABLE_FRAMESKIP]. *)
Definition skipping (cfg : config) (st : pacing) : bool :=
  negb (DISABLE_FRAMESKIP cfg)
  && Z.ltb 0 (FRAMESKIP_AMOUNT cfg) && Z.ltb 0 (skip_remaining st).

(** The argument of [usleep] before a displayed frame, 0 when the loop
    does not sleep. *)
Definition sleep_time (st : pacing) (ev : frame_env) : Z :=
  let elapsed := wrap64 (current_time ev - last_frame_time st) in
  if Z.ltb elapsed (frame_duration_us st) then
    let s := frame_duration_us st - elapsed in
    if Z.ltb 1000 s && Z.ltb s 50000 then s else 0
  else 0.

(** src/main.c, lines 1336-1448: one decoded frame in the receive loop. *)
Definition main_frame_step (cfg : config) (ev : frame_env) (st : pacing)
  : frame_outcome * pacing :=
  if skipping cfg st then
    (Dropped,
     mk_pacing (wrap64 (last_frame_time st + frame_duration_us st))
       (frame_duration_us st) (sint32 (frames_dropped st + 1))
       (frames_displayed st) (sint32 (skip_remaining st - 1)) (should_quit st))
  else if negb (setup_ok ev) then
    (Abandoned,
     mk_pacing (shown_time ev) (frame_duration_us st) (frames_dropped st)
       (frames_displayed st) (skip_remaining st) (should_quit st))
  else
    let shown := sint32 (frames_displayed st + 1) in
    if poll_after_draw ev then
      (DisplayedQuit,
       mk_pacing (shown_time ev) (frame_duration_us st) (frames_dropped st)
         shown (skip_remaining st) true)
    else if Z.eqb (Z.rem shown 5) 0 && poll_fifth ev then
      (DisplayedQuit,
       mk_pacing (shown_time ev) (frame_duration_us st) (frames_dropped st)
         shown (FRAMESKIP_AMOUNT cfg) true)
    else
      (Displayed,
       mk_pacing (shown_time ev) (frame_duration_us st) (frames_dropped st)
         shown (FRAMESKIP_AMOUNT cfg) (should_quit st)).

(** The sibling main file (unnamed/part_004), lines 705-770: the same
    step without the setup block and without the poll after the draw;
    a skipped frame leaves [last_frame_time] alone. *)
Definition part004_frame_step (cfg : config) (ev : frame_env) (st : pacing)
  : frame_outcome * pacing :=
  if skipping cfg st then
    (Dropped,
     mk_pacing (last_frame_time st) (frame_duration_us st)
       (sint32 (frames_dropped st + 1)) (frames_displayed st)
       (sint32 (skip_remaining st - 1)) (should_quit st))
  else
    let shown := sint32 (frames_displayed st + 1) in
    if Z.eqb (Z.rem shown 5) 0 && poll_fifth ev then
      (DisplayedQuit,
       mk_pacing (shown_time ev) (frame_duration_us st) (frames_dropped st)
         shown (FRAMESKIP_AMOUNT cfg) true)
    else
      (Displayed,
       mk_pacing (shown_time ev) (frame_duration_us st) (frames_dropped st)
         shown (FRAMESKIP_AMOUNT cfg) (should_quit st)).

(** A sequence of decoded frames through a step function: the outcomes
    in order and the final state.  Playback ends at the first quit. *)
Fixpoint play (step : frame_env -> pacing -> frame_outcome * pacing)
    (evs : list frame_env) (st : pacing) : list frame_outcome * pacing :=
  match evs with
  | [] => ([], st)
  | ev :: rest =>
      let (o, st') := step ev st in
      match o with
      | DisplayedQuit => ([o], st')
      | _ => let (os, st'') := play step rest st' in (o :: os, st'')
      end
  end.

Definition outcome_eqb (a b : frame_outcome) : bool :=
  match a, b with
  | Dropped, Dropped | Displayed, Displayed
  | DisplayedQuit, DisplayedQuit | Abandoned, Abandoned => true
  | _, _ => false
  end.

Definition count_outcome (o : frame_outcome) (os : list frame_outcome) : nat :=
  List.length (filter (outcome_eqb o) os).

(** No failure and no quit request while the frame is handled. *)
Definition undisturbed (ev : frame_env) : bool :=
  setup_ok ev && negb (poll_after_draw ev) && negb (poll_fifth ev).

End Pacing.

(* ================================================================== *)
(** * Properties of the playlist parser *)
(* ================================================================== *)

Module HlsParserFacts.

Import HlsParser.

(** The playlist kind a trimmed line assigns, following the order of
    the [if / else if] chain of the parser; [None] for a line that
    leaves the kind alone. *)
Definition tag_kind (trimmed : string) : option hls_playlist_type_t :=
  if has_tag "#EXTM3U" trimmed then None
  else if has_tag "#EXT-X-STREAM-INF:" trimmed then Some HLS_PLAYLIST_MASTER
  else if has_tag "#EXTINF:" trimmed then Some HLS_PLAYLIST_MEDIA
  else if has_tag "#EXT-X-TARGETDURATION:" trimmed then Some HLS_PLAYLIST_MEDIA
  else if has_tag "#EXT-X-MEDIA-SEQUENCE:" trimmed then Some HLS_PLAYLIST_MEDIA
  else None.

Definition kind_after (k : hls_playlist_type_t) (line : string) : hls_playlist_type_t :=
  match tag_kind (trim line) with
  | Some k' => k'
  | None => k
  end.

(** The kind reached from [k] after the given lines, each one
    overriding what came before. *)
Definition kind_of_lines (k : hls_playlist_type_t) (ls : list string)
  : hls_playlist_type_t :=
  fold_left kind_after ls k.

(** The result code and the playlist of a call. *)
Definition parse_code (a : Alloc.t) (data base : option string)
    (playlist : option hls_playlist_t) : hls_error_t :=
  fst (fst (hls_parse_playlist_from_memory a data base playlist)).

Definition parse_playlist (a : Alloc.t) (data base : option string)
    (playlist : option hls_playlist_t) : option hls_playlist_t :=
  snd (hls_parse_playlist_from_memory a data base playlist).

Lemma take_false_in : forall a a', Alloc.take a = (false, a') -> In false a.
Proof.
  intros [|b r] a' H; simpl in H.
  - discriminate.
  - inversion H; subst. now left.
Qed.

Lemma take_rest_in : forall a ok a', Alloc.take a = (ok, a') ->
  In false a' -> In false a.
Proof.
  intros [|b r] ok a' H Hin; simpl in H; inversion H; subst.
  - contradiction.
  - now right.
Qed.

Lemma add_variant_type : forall t a p,
  type (snd (add_variant t a p)) = type p.
Proof.
  intros t a p. unfold add_variant.
  destruct (Alloc.take a) as [[|] a1]; simpl; auto.
  destruct (Alloc.take a1) as [[|] a2]; reflexivity.
Qed.

Lemma add_variant_alloc : forall t a p,
  In false (fst (add_variant t a p)) -> In false a.
Proof.
  intros t a p. unfold add_variant.
  destruct (Alloc.take a) as [[|] a1] eqn:E1; simpl.
  - destruct (Alloc.take a1) as [[|] a2] eqn:E2; simpl; intros H;
      eapply take_rest_in; eauto; eapply take_rest_in; eauto.
  - intros H. eapply take_rest_in; eauto.
Qed.

Lemma add_segment_type : forall t d a p,
  type (snd (add_segment t d a p)) = type p.
Proof.
  intros t d a p. unfold add_segment.
  destruct (Nat.leb (segment_capacity p) (segment_count p)).
  - destruct (Alloc.take a) as [[|] a1]; simpl; auto.
    destruct (Alloc.take a1) as [[|] a2]; reflexivity.
  - destruct (Alloc.take a) as [[|] a2]; reflexivity.
Qed.

Lemma add_segment_code : forall t d a p,
  fst (fst (add_segment t d a p)) = HLS_OK
  \/ (fst (fst (add_segment t d a p)) = HLS_ERROR_MEMORY /\ In false a).
Proof.
  intros t d a p. unfold add_segment.
  destruct (Nat.leb (segment_capacity p) (segment_count p)).
  - destruct (Alloc.take a) as [[|] a1] eqn:E1; simpl.
    + destruct (Alloc.take a1) as [[|] a2]; left; reflexivity.
    + right. split; [reflexivity | eapply take_false_in; eauto].
  - destruct (Alloc.take a) as [[|] a2]; left; reflexivity.
Qed.

Lemma add_segment_alloc : forall t d a p,
  In false (snd (fst (add_segment t d a p))) -> In false a.
Proof.
  intros t d a p. unfold add_segment.
  destruct (Nat.leb (segment_capacity p) (segment_count p)).
  - destruct (Alloc.take a) as [[|] a1] eqn:E1; simpl.
    + destruct (Alloc.take a1) as [[|] a2] eqn:E2; simpl; intros H;
        eapply take_rest_in; eauto; eapply take_rest_in; eauto.
    + intros H. eapply take_rest_in; eauto.
  - destruct (Alloc.take a) as [[|] a2] eqn:E2; simpl; intros H;
      eapply take_rest_in; eauto.
Qed.

(** What [classify] does to the kind, to the result code and to the
    allocation outcomes still to come. *)
Lemma classify_spec : forall t st,
  type (ps_playlist (snd (classify t st)))
    = match tag_kind t with
      | Some k => k
      | None => type (ps_playlist st)
      end
  /\ (fst (classify t st) = HLS_OK
      \/ (fst (classify t st) = HLS_ERROR_MEMORY /\ In false (ps_alloc st)))
  /\ (In false (ps_alloc (snd (classify t st))) -> In false (ps_alloc st)).
Proof.
  intros t st. unfold classify, tag_kind.
  destruct (has_tag "#EXTM3U" t); [simpl; auto|].
  destruct (has_tag "#EXT-X-STREAM-INF:" t); [simpl; auto|].
  destruct (has_tag "#EXTINF:" t); [simpl; auto|].
  destruct (has_tag "#EXT-X-TARGETDURATION:" t); [simpl; auto|].
  destruct (has_tag "#EXT-X-MEDIA-SEQUENCE:" t); [simpl; auto|].
  destruct (is_uri_line t); [|simpl; auto].
  pose proof (add_variant_type t (ps_alloc st) (ps_playlist st)) as Hv.
  pose proof (add_variant_alloc t (ps_alloc st) (ps_playlist st)) as Hva.
  pose proof (add_segment_type t (ps_duration st) (ps_alloc st) (ps_playlist st)) as Hs.
  pose proof (add_segment_code t (ps_duration st) (ps_alloc st) (ps_playlist st)) as Hc.
  pose proof (add_segment_alloc t (ps_duration st) (ps_alloc st) (ps_playlist st)) as Hsa.
  destruct (add_variant t (ps_alloc st) (ps_playlist st)) as [av pv].
  destruct (add_segment t (ps_duration st) (ps_alloc st) (ps_playlist st))
    as [[es asg] psg].
  simpl in *.
  destruct (type (ps_playlist st)) eqn:Ety; simpl; auto.
Qed.

Lemma process_line_spec : forall l st,
  (fst (process_line l st) = HLS_OK
   /\ type (ps_playlist (snd (process_line l st)))
        = kind_after (type (ps_playlist st)) l)
  \/ (fst (process_line l st) = HLS_ERROR_MEMORY
      /\ In false (ps_alloc st)
      /\ type (ps_playlist (snd (process_line l st))) = type (ps_playlist st)).
Proof.
  intros l st. unfold process_line, kind_after.
  destruct (Alloc.take (ps_alloc st)) as [[|] a1] eqn:E.
  - destruct (classify_spec (trim l)
                (mk_pstate a1 (ps_playlist st) (ps_duration st)))
      as (Hty & Hcode & _).
    simpl in Hty, Hcode.
    destruct Hcode as [Hok | [Hmem Hin]].
    + left. split; assumption.
    + right. split; [assumption|]. split.
      * eapply take_rest_in; eauto.
      * rewrite Hty.
        (* a memory error comes from the URI branch, which has no tag *)
        revert Hmem. unfold classify, tag_kind.
        destruct (has_tag "#EXTM3U" (trim l)); [simpl; discriminate|].
        destruct (has_tag "#EXT-X-STREAM-INF:" (trim l)); [simpl; discriminate|].
        destruct (has_tag "#EXTINF:" (trim l)); [simpl; discriminate|].
        destruct (has_tag "#EXT-X-TARGETDURATION:" (trim l)); [simpl; discriminate|].
        destruct (has_tag "#EXT-X-MEDIA-SEQUENCE:" (trim l)); [simpl; discriminate|].
        reflexivity.
  - right. simpl. split; [reflexivity|]. split; [|reflexivity].
    eapply take_false_in; eauto.
Qed.

Lemma process_line_alloc : forall l st,
  In false (ps_alloc (snd (process_line l st))) -> In false (ps_alloc st).
Proof.
  intros l st. unfold process_line.
  destruct (Alloc.take (ps_alloc st)) as [[|] a1] eqn:E.
  - intros H.
    apply (proj2 (proj2 (classify_spec (trim l)
             (mk_pstate a1 (ps_playlist st) (ps_duration st))))) in H.
    simpl in H. eapply take_rest_in; eauto.
  - simpl. intros H. eapply take_rest_in; eauto.
Qed.

(** The loop over the lines: the kind is the one left by the lines
    processed, all of them when the loop ends with [HLS_OK]; the only
    other result is a memory error, after a failed allocation. *)
Lemma parse_lines_spec : forall ls st,
  exists n,
    type (ps_playlist (snd (parse_lines ls st)))
      = kind_of_lines (type (ps_playlist st)) (firstn n ls)
    /\ ((fst (parse_lines ls st) = HLS_OK /\ n = List.length ls)
        \/ (fst (parse_lines ls st) = HLS_ERROR_MEMORY /\ In false (ps_alloc st))).
Proof.
  induction ls as [|l rest IH]; intros st.
  - exists 0. simpl. auto.
  - simpl.
    destruct (process_line_spec l st) as [[Hok Hty] | (Hmem & Hin & Hty)].
    + pose proof (process_line_alloc l st) as Hal.
      destruct (process_line l st) as [e st1]. simpl in *. subst e.
      destruct (IH st1) as (n & Hn & Hcode).
      exists (S n). simpl. unfold kind_of_lines in *. simpl.
      rewrite <- Hty. split; [exact Hn|].
      destruct Hcode as [[H1 H2] | [H1 H2]]; [left | right]; auto.
    + destruct (process_line l st) as [e st1]. simpl in *. subst e.
      exists 0. simpl. auto.
Qed.

Lemma store_base_url_spec : forall base a p,
  type (snd (store_base_url base a p)) = type p
  /\ (In false (fst (store_base_url base a p)) -> In false a).
Proof.
  intros [b|] a p; unfold store_base_url; simpl; auto.
  destruct (Alloc.take a) as [ok a1] eqn:E. simpl. split; [reflexivity|].
  intros H. eapply take_rest_in; eauto.
Qed.

Lemma prefix_cons : forall a s1 b s2,
  String.prefix (String a s1) (String b s2)
  = if ascii_dec a b then String.prefix s1 s2 else false.
Proof. reflexivity. Qed.

(** One character of a tag comparison: the line has a next character,
    equal to the tag's. *)
Ltac tag_char H t :=
  destruct t as [|? t]; [simpl in H; discriminate H|];
  rewrite prefix_cons in H;
  match type of H with
  | (if ascii_dec ?a ?b then _ else _) = true =>
      destruct (ascii_dec a b) as [<-|]; [|discriminate H]
  end.

(** A line carrying the stream-inf tag does not carry [#EXTM3U]. *)
Lemma stream_inf_not_extm3u : forall t,
  has_tag "#EXT-X-STREAM-INF:" t = true -> has_tag "#EXTM3U" t = false.
Proof.
  unfold has_tag. intros t H.
  do 5 (tag_char H t). reflexivity.
Qed.

(** The text made of the given lines, each one ended by a newline. *)
Fixpoint unlines (ls : list string) : string :=
  match ls with
  | [] => EmptyString
  | l :: rest => String.append l (String nl (unlines rest))
  end.

(** A media playlist entry followed by a stream-inf tag. *)
Definition reverting_text : string :=
  unlines ["#EXTM3U"; "#EXTINF:4.0,"; "seg0.ts"; "#EXT-X-STREAM-INF:BANDWIDTH=1280000"].

Definition fresh_playlist : hls_playlist_t :=
  mk_playlist HLS_PLAYLIST_UNKNOWN None [] 16 [].

(** C7, as stated, fails: in [reverting_text] the first kind-setting tag
    is [#EXTINF:], after which the kind is Media (the text cut after that
    line parses to a Media playlist), yet the parse of the whole text
    ends with kind Master. *)
Lemma kind_reverts_to_master :
  option_map type
    (parse_playlist Alloc.all_ok (Some (unlines ["#EXTM3U"; "#EXTINF:4.0,"]))
       None (Some fresh_playlist)) = Some HLS_PLAYLIST_MEDIA
  /\ option_map type
       (parse_playlist Alloc.all_ok (Some reverting_text) None (Some fresh_playlist))
     = Some HLS_PLAYLIST_MASTER.
Proof. split; reflexivity. Qed.

(** C7 (amended): the kind of the parsed playlist is the one assigned
    by the last kind-setting tag among the lines processed
    ([#EXT-X-STREAM-INF:] assigns Master; [#EXTINF:],
    [#EXT-X-TARGETDURATION:] and [#EXT-X-MEDIA-SEQUENCE:] assign Media;
    every other line leaves the kind alone), all lines being processed
    when the call returns [HLS_OK]; in particular a stream-inf line
    turns any kind, Media included, into Master. *)
Theorem playlist_kind_follows_last_tag : forall a data base p,
  (exists n p',
      parse_playlist a (Some data) base (Some p) = Some p'
      /\ type p' = kind_of_lines (type p) (firstn n (lines data))
      /\ (parse_code a (Some data) base (Some p) = HLS_OK
          -> n = List.length (lines data)))
  /\ (forall l, has_tag "#EXT-X-STREAM-INF:" (trim l) = true ->
        kind_after HLS_PLAYLIST_MEDIA l = HLS_PLAYLIST_MASTER)
  /\ (forall k l rest,
        kind_of_lines k (l :: rest) = kind_of_lines (kind_after k l) rest).
Proof.
  intros a data base p. split; [|split].
  - unfold parse_playlist, parse_code, hls_parse_playlist_from_memory.
    destruct (store_base_url_spec base a p) as [Hty _].
    destruct (store_base_url base a p) as [a1 p1]. simpl in Hty.
    destruct (parse_lines_spec (lines data) (mk_pstate a1 p1 None))
      as (n & Hn & Hcode).
    destruct (parse_lines (lines data) (mk_pstate a1 p1 None)) as [e st].
    simpl in *. exists n, (ps_playlist st). rewrite <- Hty.
    split; [reflexivity|]. split; [exact Hn|].
    intros He. destruct Hcode as [[_ H]|[H _]]; [exact H|congruence].
  - intros l H. unfold kind_after, tag_kind.
    rewrite (stream_inf_not_extm3u _ H), H. reflexivity.
  - reflexivity.
Qed.

(** C10: the parser returns [HLS_ERROR_PARSE] exactly when [data] or
    [playlist] is NULL; on non-NULL arguments it returns [HLS_OK] or
    [HLS_ERROR_MEMORY], the latter only after a failed allocation, so
    that any text at all parses to [HLS_OK] when no allocation fails. *)
Theorem parse_error_only_for_null_arguments : forall a data base playlist,
  (parse_code a data base playlist = HLS_ERROR_PARSE
     <-> data = None \/ playlist = None)
  /\ (parse_code a data base playlist = HLS_ERROR_MEMORY -> In false a)
  /\ (forall text p, data = Some text -> playlist = Some p ->
        parse_code a data base playlist = HLS_OK
        \/ parse_code a data base playlist = HLS_ERROR_MEMORY)
  /\ (forall text p,
        parse_code Alloc.all_ok (Some text) base (Some p) = HLS_OK).
Proof.
  assert (Hnn : forall a base text p,
             (parse_code a (Some text) base (Some p) = HLS_OK)
             \/ (parse_code a (Some text) base (Some p) = HLS_ERROR_MEMORY
                 /\ In false a)).
  { intros a base text p.
    unfold parse_code, hls_parse_playlist_from_memory.
    destruct (store_base_url_spec base a p) as [_ Hal].
    destruct (store_base_url base a p) as [a1 p1]. simpl in Hal.
    destruct (parse_lines_spec (lines text) (mk_pstate a1 p1 None))
      as (n & _ & Hcode).
    destruct (parse_lines (lines text) (mk_pstate a1 p1 None)) as [e st].
    simpl in *. destruct Hcode as [[H _]|[H Hin]]; auto. }
  intros a data base playlist. split; [|split; [|split]].
  - destruct data as [text|], playlist as [p|];
      try (unfold parse_code; simpl; split; auto; fail).
    split.
    + intros H. destruct (Hnn a base text p) as [H'|[H' _]]; congruence.
    + intros [H|H]; discriminate.
  - destruct data as [text|], playlist as [p|];
      try (unfold parse_code; simpl; discriminate).
    intros H. destruct (Hnn a base text p) as [H'|[_ Hin]]; [congruence|exact Hin].
  - intros text p -> ->. destruct (Hnn a base text p) as [H|[H _]]; auto.
  - intros text p. destruct (Hnn Alloc.all_ok base text p) as [H|[_ []]]. exact H.
Qed.

End HlsParserFacts.

(* ================================================================== *)
(** * Properties of the refresh loop *)
(* ================================================================== *)

Module HlsStreamFacts.

Import HlsParser HlsStream.

Definition url_at (segs : list hls_segment_t) (i : nat) : option string :=
  option_map url (nth_error segs i).

Lemma find_url_some : forall u segs from i,
  find_url u segs from = Some i ->
  from <= i
  /\ i - from < List.length segs
  /\ url_at segs (i - from) = Some u
  /\ (forall j, j < i - from -> url_at segs j <> Some u).
Proof.
  intros u segs. induction segs as [|s rest IH]; intros from i H; simpl in H.
  - discriminate.
  - destruct (String.eqb (url s) u) eqn:E.
    + inversion H; subst i. rewrite Nat.sub_diag. simpl.
      apply String.eqb_eq in E.
      repeat split; [lia | lia | unfold url_at; simpl; now rewrite E | lia].
    + apply IH in H. destruct H as (Hle & Hlt & Hat & Hbefore).
      assert (Hi : i - from = S (i - S from)) by lia.
      rewrite Hi. simpl. repeat split; [lia | lia | exact Hat |].
      intros [|j] Hj.
      * unfold url_at; simpl. apply String.eqb_neq in E. congruence.
      * apply Hbefore. lia.
Qed.

Lemma find_url_none : forall u segs from,
  (forall s, In s segs -> url s <> u) -> find_url u segs from = None.
Proof.
  intros u segs. induction segs as [|s rest IH]; intros from H; simpl.
  - reflexivity.
  - destruct (String.eqb (url s) u) eqn:E.
    + apply String.eqb_eq in E. exfalso. apply (H s); [now left | exact E].
    + apply IH. intros s' Hin. apply H. now right.
Qed.

(** ** The sliding-window scenario *)

Definition playlist_url : string := "http://cdn.example/live/index.m3u8".

(** A media playlist listing the given URIs, one [#EXTINF] entry each. *)
Definition media_text (uris : list string) : string :=
  HlsParserFacts.unlines
    ("#EXTM3U" :: "#EXT-X-TARGETDURATION:2"
       :: flat_map (fun u => ["#EXTINF:2.0,"; u]) uris).

(** The bytes served for a segment URL. *)
Definition body_of (u : string) : string := String.append "segment " u.

(** The first playlist fetch answers [A,B,C], every later one [B,C,D];
    every segment URL answers its body. *)
Definition window_net : network := fun clock u =>
  if String.eqb u playlist_url
  then DlOk (media_text (if Nat.eqb clock 0 then ["A"; "B"; "C"] else ["B"; "C"; "D"]))
  else DlOk (body_of u).

(** The first playlist fetch answers [A,B,C], every later one [D,E,F]:
    the window has rotated past the last dispatched segment. *)
Definition rotated_net : network := fun clock u =>
  if String.eqb u playlist_url
  then DlOk (media_text (if Nat.eqb clock 0 then ["A"; "B"; "C"] else ["D"; "E"; "F"]))
  else DlOk (body_of u).

(** A consumer that records what it is given and asks to continue. *)
Definition recorder : string -> list string -> Z * list string :=
  fun data seen => (0%Z, seen ++ [data]).

Definition segs_of (uris : list string) : list hls_segment_t :=
  map (fun u => mk_segment u (Some "2.0,") false None None) uris.

Section Consumer.

Context {U : Type}.
Variable cb : string -> U -> Z * U.
Hypothesis cb_continues : forall d u, fst (cb d u) = 0%Z.

(** The user data after the consumer received segment [x]. *)
Definition deliver (x : string) (u : U) : U :=
  snd (cb (body_of (String.append "http://cdn.example/live/" x)) u).

(** Evaluate up to the calls of the consumer, and replace the result
    of each call by "continue". *)
Ltac run_consumer :=
  cbv;
  repeat match goal with
         | |- context [cb ?d ?u] =>
             let r := fresh "r" in
             let u' := fresh "u" in
             let E := fresh "E" in
             pose proof (cb_continues d u) as E;
             destruct (cb d u) as [r u']; simpl in E; subst r; cbv
         end.

Lemma first_refresh : forall u0,
  refresh window_net cb playlist_url (mk_loop 0 [] u0 0 None)
  = (None, mk_loop 4 [] (deliver "C" (deliver "B" (deliver "A" u0))) 3 (Some "C")).
Proof. intros u0. unfold deliver. run_consumer. reflexivity. Qed.

Lemma second_refresh : forall u,
  refresh window_net cb playlist_url (mk_loop 4 [] u 3 (Some "C"))
  = (None, mk_loop 6 [] (deliver "D" u) 3 (Some "D")).
Proof. intros u. unfold deliver. run_consumer. reflexivity. Qed.

Lemma later_refresh : forall c u,
  refresh window_net cb playlist_url (mk_loop (S c) [] u 3 (Some "D"))
  = (None, mk_loop (S (S c)) [] u 3 (Some "D")).
Proof. intros c u. reflexivity. Qed.

Lemma later_refreshes : forall n c u,
  refresh_loop window_net cb n playlist_url (mk_loop (S c) [] u 3 (Some "D"))
  = Running (mk_loop (n + S c) [] u 3 (Some "D")).
Proof.
  induction n as [|n IH]; intros c u.
  - reflexivity.
  - cbn [refresh_loop]. rewrite later_refresh, IH. f_equal. f_equal. lia.
Qed.

Lemma window_run : forall n u0,
  refresh_loop window_net cb (2 + n) playlist_url (mk_loop 0 [] u0 0 None)
  = Running (mk_loop (n + 6) [] 
               (deliver "D" (deliver "C" (deliver "B" (deliver "A" u0))))
               3 (Some "D")).
Proof.
  intros n u0. cbn [refresh_loop Nat.add].
  rewrite first_refresh, second_refresh, later_refreshes. reflexivity.
Qed.

End Consumer.

(** C1, as stated, fails: with [C] dispatched last and a previous
    segment count of 3, the fresh list [D,E,F] does not contain [C], and
    the start index is 0, not the previous count 3; the run over the
    fetch sequence [A,B,C] then [D,E,F] hands all six segments to the
    consumer. *)
Lemma start_index_after_rotation :
  find_url "C" (segs_of ["D"; "E"; "F"]) 0 = None
  /\ start_index (Some "C") 3 (segs_of ["D"; "E"; "F"]) = 0
  /\ start_index (Some "C") 3 (segs_of ["D"; "E"; "F"]) <> 3
  /\ hls_process_stream 2 rotated_net Alloc.all_ok true (Some playlist_url)
       (Some recorder) []
     = Running
         (mk_loop 8 []
            (map (fun x => body_of (String.append "http://cdn.example/live/" x))
               ["A"; "B"; "C"; "D"; "E"; "F"])
            3 (Some "F")).
Proof.
  split; [reflexivity|]. split; [reflexivity|].
  split; [discriminate|]. reflexivity.
Qed.

(** C1 (amended): on each refresh the dispatch starts just after the
    first occurrence of the previously dispatched URI in the freshly
    parsed list; when that URI does not occur the dispatch starts at
    index 0, so that the whole fresh window is dispatched; the previous
    segment count (clamped to the new count) is the start index only
    while no segment has been dispatched yet.  Consequently, for the
    fetch sequence [A,B,C] then [B,C,D] (repeated on every later
    refresh), a consumer that always continues receives A, B, C, D,
    each exactly once, in that order, however many refreshes follow. *)
Theorem dispatch_start_index_and_sliding_window :
  (forall u c segs i,
      find_url u segs 0 = Some i ->
      start_index (Some u) c segs = i + 1
      /\ url_at segs i = Some u
      /\ (forall j, j < i -> url_at segs j <> Some u))
  /\ (forall u c segs,
        (forall s, In s segs -> url s <> u) ->
        start_index (Some u) c segs = 0)
  /\ (forall c segs, start_index None c segs = Nat.min c (List.length segs))
  /\ (forall (U : Type) (cb : string -> U -> Z * U) (u0 : U) (n : nat),
        (forall d u, fst (cb d u) = 0%Z) ->
        exists st,
          hls_process_stream (2 + n) window_net Alloc.all_ok true
            (Some playlist_url) (Some cb) u0 = Running st
          /\ ls_user st
             = deliver cb "D" (deliver cb "C" (deliver cb "B" (deliver cb "A" u0)))
          /\ ls_last_processed_url st = Some "D").
Proof.
  split; [|split; [|split]].
  - intros u c segs i H. unfold start_index. rewrite H.
    apply find_url_some in H. rewrite Nat.sub_0_r in H.
    destruct H as (_ & Hlt & Hat & Hbefore).
    split; [|split; assumption].
    destruct (Nat.ltb (List.length segs) (i + 1)) eqn:E; [|reflexivity].
    apply Nat.ltb_lt in E. lia.
  - intros u c segs H. unfold start_index.
    rewrite (find_url_none u segs 0 H). reflexivity.
  - intros c segs. unfold start_index.
    destruct (Nat.ltb (List.length segs) c) eqn:E.
    + apply Nat.ltb_lt in E. lia.
    + apply Nat.ltb_ge in E. lia.
  - intros U cb u0 n Hcb. unfold hls_process_stream, Alloc.all_ok.
    rewrite (window_run cb Hcb). eexists. split; [reflexivity|].
    split; reflexivity.
Qed.

(** The recording consumer on the same fetch sequence, three refreshes. *)
Example sliding_window_recorded :
  hls_process_stream 3 window_net Alloc.all_ok true (Some playlist_url)
    (Some recorder) []
  = Running
      (mk_loop 7 []
         (map (fun x => body_of (String.append "http://cdn.example/live/" x))
            ["A"; "B"; "C"; "D"])
         3 (Some "D")).
Proof. reflexivity. Qed.

(** ** Fetch failures *)

(** The playlist is unreachable at the second refresh. *)
Definition outage_net : network := fun clock u =>
  if String.eqb u playlist_url
  then if Nat.eqb clock 0 then DlOk (media_text ["A"; "B"; "C"]) else DlPerformFail
  else DlOk (body_of u).

(** Segment [B] cannot be fetched. *)
Definition lossy_net : network := fun clock u =>
  if String.eqb u playlist_url then DlOk (media_text ["A"; "B"; "C"])
  else if String.eqb u "http://cdn.example/live/B" then DlPerformFail
  else DlOk (body_of u).

(** X9: failures that [download_url] reports, that is a failed
    [curl_easy_init] (HLS_ERROR_MEMORY) or an error code of
    [curl_easy_perform] (HLS_ERROR_NETWORK).  In any iteration of the
    refresh loop such a failure on the playlist makes
    [hls_process_stream] return the download's error code, the consumer
    not being called; on a segment it skips that segment only: the
    consumer is not called for it and the loop goes on with the next
    segment. *)
Theorem playlist_failure_fatal_segment_failure_skipped :
  forall (U : Type) (net : network) (cb : string -> U -> Z * U),
  (forall n pu (st : loop_state) a1 e,
      Alloc.take (ls_alloc st) = (true, a1) ->
      fst (download_url net (ls_clock st) pu) = e ->
      e <> HLS_OK ->
      refresh_loop net cb (S n) pu st
      = Returned e (mk_loop (S (ls_clock st)) a1 (ls_user st)
                      (ls_last_count st) (ls_last_processed_url st)))
  /\ (forall base seg rest (st : loop_state) a1 su a2 ok a3,
        hls_resolve_url (ls_alloc st) base (Some (url seg)) = (a1, Some su) ->
        Alloc.take a1 = (true, a2) ->
        fst (download_url net (ls_clock st) su) <> HLS_OK ->
        Alloc.take a2 = (ok, a3) ->
        dispatch net cb base (seg :: rest) st
        = dispatch net cb base rest
            (mk_loop (S (ls_clock st)) a3 (ls_user st) (ls_last_count st)
               (if ok then Some (url seg) else None)))
  /\ hls_process_stream 5 outage_net Alloc.all_ok true (Some playlist_url)
       (Some recorder) []
     = Returned HLS_ERROR_NETWORK
         (mk_loop 5 []
            (map (fun x => body_of (String.append "http://cdn.example/live/" x))
               ["A"; "B"; "C"])
            3 (Some "C"))
  /\ hls_process_stream 1 lossy_net Alloc.all_ok true (Some playlist_url)
       (Some recorder) []
     = Running
         (mk_loop 4 []
            (map (fun x => body_of (String.append "http://cdn.example/live/" x))
               ["A"; "C"])
            3 (Some "C")).
Proof.
  intros U net cb. split; [|split; [|split]].
  - intros n pu st a1 e Ha He Hne. cbn [refresh_loop]. unfold refresh.
    rewrite Ha. cbn [negb].
    destruct (download_url net (ls_clock st) pu) as [err text].
    simpl in He. subst err.
    destruct e; try reflexivity. congruence.
  - intros base seg rest st a1 su a2 ok a3 Hres Hbuf Hdl Hdup.
    cbn [dispatch]. rewrite Hres, Hbuf.
    destruct (download_url net (ls_clock st) su) as [err body].
    simpl in Hdl.
    assert (E : hls_error_eqb err HLS_OK = false)
      by (destruct err; try reflexivity; congruence).
    rewrite E. cbn [andb]. cbn [Z.eqb negb]. rewrite Hdup. reflexivity.
  - reflexivity.
  - reflexivity.
Qed.

(** ** Error replies of the server *)

(** The body of a 404 reply. *)
Definition not_found_page : string := "<html><body>404 Not Found</body></html>".

(** The playlist is answered once, then the server replies 404 to it;
    a transfer for a URL made from the text of the error page fails. *)
Definition gone_net : network := fun clock u =>
  if String.eqb u playlist_url
  then if Nat.eqb clock 0 then DlOk (media_text ["A"; "B"; "C"])
       else DlHttpError 404 not_found_page
  else if String.prefix "http://cdn.example/live/<html>" u
       then DlPerformFail
       else DlOk (body_of u).

(** The server replies 404 to segment [B]. *)
Definition missing_net : network := fun clock u =>
  if String.eqb u playlist_url then DlOk (media_text ["A"; "B"; "C"])
  else if String.eqb u "http://cdn.example/live/B" then DlHttpError 404 not_found_page
  else DlOk (body_of u).

Definition bodies (names : list string) : list string :=
  map (fun x => body_of (String.append "http://cdn.example/live/" x)) names.

Lemma gone_later_refresh : forall c (seen : list string),
  refresh gone_net recorder playlist_url
    (mk_loop (S c) [] seen 1 (Some not_found_page))
  = (None, mk_loop (S (S c)) [] seen 1 (Some not_found_page)).
Proof. intros. reflexivity. Qed.

Lemma gone_later_refreshes : forall n c (seen : list string),
  refresh_loop gone_net recorder n playlist_url
    (mk_loop (S c) [] seen 1 (Some not_found_page))
  = Running (mk_loop (n + S c) [] seen 1 (Some not_found_page)).
Proof.
  induction n as [|n IH]; intros c seen; [reflexivity|].
  cbn [refresh_loop]. rewrite gone_later_refresh. cbv iota. rewrite IH.
  replace (n + S (S c)) with (S n + S c) by lia. reflexivity.
Qed.

(** C9: a fetch that the server answers with an error status is not a
    failed fetch for [download_url], which returns [HLS_OK] with the
    body of the error reply.  When the playlist gets a 404 from its
    second fetch on, [hls_process_stream] does not return, however many
    refreshes are observed: the error page is parsed as a playlist and
    its one line is taken for a segment URI (last count 1, last URI the
    page).  When segment [B] gets a 404, the
    consumer receives the error page in the place of the segment. *)
Theorem http_error_reply_taken_for_success :
  (forall (net : network) clock u status page,
      net clock u = DlHttpError status page ->
      download_url net clock u = (HLS_OK, page))
  /\ (forall n,
        hls_process_stream (S (S n)) gone_net Alloc.all_ok true (Some playlist_url)
          (Some recorder) []
        = Running
            (mk_loop (n + 6) [] (bodies ["A"; "B"; "C"]) 1 (Some not_found_page)))
  /\ hls_process_stream 1 missing_net Alloc.all_ok true (Some playlist_url)
       (Some recorder) []
     = Running
         (mk_loop 4 []
            [body_of "http://cdn.example/live/A"; not_found_page;
             body_of "http://cdn.example/live/C"]
            3 (Some "C")).
Proof.
  split; [|split].
  - intros net clock u status page H. unfold download_url. rewrite H. reflexivity.
  - intros n. unfold hls_process_stream. cbn [refresh_loop].
    change (refresh gone_net recorder playlist_url (mk_loop 0 Alloc.all_ok [] 0 None))
      with (@None hls_error_t, mk_loop 4 [] (bodies ["A"; "B"; "C"]) 3 (Some "C")).
    cbv iota.
    change (refresh gone_net recorder playlist_url
              (mk_loop 4 [] (bodies ["A"; "B"; "C"]) 3 (Some "C")))
      with (@None hls_error_t,
            mk_loop 6 [] (bodies ["A"; "B"; "C"]) 1 (Some not_found_page)).
    cbv iota. rewrite gone_later_refreshes. reflexivity.
  - reflexivity.
Qed.

End HlsStreamFacts.

(* ================================================================== *)
(** * Properties of the parameter-set / slice state machine *)
(* ================================================================== *)

Module SimpleH264Facts.

Import SimpleH264.
Open Scope Z_scope.

(** A NAL unit whose header byte announces a slice (type 1 or 5). *)
Definition is_slice_nal (nal : list byte) : Prop :=
  simple_h264_get_nal_type nal = SIMPLE_H264_NAL_SLICE
  \/ simple_h264_get_nal_type nal = SIMPLE_H264_NAL_IDR_SLICE.

(** Decode the NAL units in order with a frame output, collecting the
    result codes. *)
Fixpoint decode_sequence (a : Alloc.t) (d : option simple_h264_decoder_t)
    (nals : list (list byte))
  : list simple_h264_result_t * Alloc.t * option simple_h264_decoder_t :=
  match nals with
  | [] => ([], a, d)
  | nal :: rest =>
      let '(r, a1, d1, _) := simple_h264_decode a d (Some nal) true in
      let '(rs, a2, d2) := decode_sequence a1 d1 rest in
      (r :: rs, a2, d2)
  end.

Definition results_of (a : Alloc.t) (d : simple_h264_decoder_t)
    (nals : list (list byte)) : list simple_h264_result_t :=
  fst (fst (decode_sequence a (Some d) nals)).

Lemma typed_nal_nonempty : forall nal,
  simple_h264_get_nal_type nal <> 0 -> exists b bs, nal = b :: bs.
Proof.
  intros [|b bs] H.
  - exfalso. apply H. reflexivity.
  - eauto.
Qed.

Lemma decode_nonempty : forall a d nal frame,
  simple_h264_get_nal_type nal <> 0 ->
  simple_h264_decode a (Some d) (Some nal) frame
  = let '(r, a', d', f) := decode_nal a d nal frame in (r, a', Some d', f).
Proof.
  intros a d nal frame H.
  destruct (typed_nal_nonempty nal H) as (b & bs & ->). reflexivity.
Qed.

Ltac split_reads :=
  repeat match goal with
         | |- context [read_ue_golomb ?x ?y ?z] =>
             destruct (read_ue_golomb x y z) as [[? ?] ?]
         | |- context [if ?c then (_, _, _) else (_, _, _)] => destruct c
         | |- context [if ?c then (_, _) else (_, _)] => destruct c
         end.

(** [parse_sps] on at least four bytes succeeds, marks the SPS valid
    and leaves the PPS flag and the frame buffer alone. *)
Lemma parse_sps_accepts : forall d sps,
  (4 <= List.length sps)%nat ->
  fst (parse_sps d sps) = true
  /\ sps_valid (snd (parse_sps d sps)) = 1
  /\ pps_valid (snd (parse_sps d sps)) = pps_valid d
  /\ frame_buffer (snd (parse_sps d sps)) = frame_buffer d
  /\ frame_buffer_size (snd (parse_sps d sps)) = frame_buffer_size d.
Proof.
  intros d sps Hlen. unfold parse_sps.
  destruct (Nat.ltb (List.length sps) 4) eqn:E.
  - apply Nat.ltb_lt in E. lia.
  - clear E. split_reads; simpl; auto.
Qed.

(** Outside the baseline profile the dimensions are the fixed fallback. *)
Lemma parse_sps_fallback : forall d sps,
  (4 <= List.length sps)%nat -> byte_at sps 1 <> 66 ->
  width (snd (parse_sps d sps)) = 1920 /\ height (snd (parse_sps d sps)) = 1080.
Proof.
  intros d sps Hlen Hprof. unfold parse_sps.
  destruct (Nat.ltb (List.length sps) 4) eqn:E.
  - apply Nat.ltb_lt in E. lia.
  - clear E. destruct (Z.eqb (byte_at sps 1) 66) eqn:E.
    + apply Z.eqb_eq in E. contradiction.
    + split_reads; simpl; auto.
Qed.

Lemma parse_sps_rejects : forall d sps,
  (List.length sps < 4)%nat -> parse_sps d sps = (false, d).
Proof.
  intros d sps Hlen. unfold parse_sps.
  destruct (Nat.ltb (List.length sps) 4) eqn:E; [reflexivity|].
  apply Nat.ltb_ge in E. lia.
Qed.

Lemma decode_sps : forall a d sps frame,
  simple_h264_get_nal_type sps = SIMPLE_H264_NAL_SPS ->
  simple_h264_decode a (Some d) (Some sps) frame
  = ((if fst (parse_sps d sps) then SIMPLE_H264_HEADERS_READY
      else SIMPLE_H264_PARAM_SET_ERROR),
     a, Some (snd (parse_sps d sps)), None).
Proof.
  intros a d sps frame Hty.
  rewrite decode_nonempty by (rewrite Hty; discriminate).
  unfold decode_nal. rewrite Hty. cbn [Z.eqb SIMPLE_H264_NAL_SPS Pos.eqb].
  destruct (parse_sps d sps) as [ok d']. reflexivity.
Qed.

Lemma decode_pps : forall a d pps frame,
  simple_h264_get_nal_type pps = SIMPLE_H264_NAL_PPS ->
  simple_h264_decode a (Some d) (Some pps) frame
  = (SIMPLE_H264_HEADERS_READY, a,
     Some (mk_decoder (width d) (height d) (profile_idc d) (level_idc d)
             (sps_valid d) 1 (frame_buffer d) (frame_buffer_size d)
             (initialized d)),
     None).
Proof.
  intros a d pps frame Hty.
  rewrite decode_nonempty by (rewrite Hty; discriminate).
  unfold decode_nal. rewrite Hty. reflexivity.
Qed.

Lemma decode_slice_nal : forall a d slice frame,
  is_slice_nal slice ->
  simple_h264_decode a (Some d) (Some slice) frame
  = let '(r, a', d', f) := decode_slice a d frame in (r, a', Some d', f).
Proof.
  intros a d slice frame Hty.
  rewrite decode_nonempty by (destruct Hty as [-> | ->]; discriminate).
  unfold decode_nal. destruct Hty as [-> | ->]; reflexivity.
Qed.

(** A slice is refused as long as a parameter set is missing. *)
Lemma slice_refused : forall a d frame,
  sps_valid d = 0 \/ pps_valid d = 0 ->
  decode_slice a d frame = (SIMPLE_H264_PARAM_SET_ERROR, a, d, None).
Proof.
  intros a d frame H. unfold decode_slice.
  destruct H as [-> | ->]; [reflexivity|].
  rewrite orb_true_r. reflexivity.
Qed.

(** With both parameter sets valid, non-zero dimensions, a frame
    output and a frame buffer that is there or can be allocated, a
    slice yields a frame of the current dimensions. *)
Lemma slice_accepted : forall a d,
  sps_valid d <> 0 -> pps_valid d <> 0 ->
  0 < width d -> 0 < height d ->
  fst (Alloc.take a) = true ->
  exists a' d' f,
    decode_slice a d true = (SIMPLE_H264_FRAME_READY, a', d', Some f)
    /\ frame_width f = width d /\ frame_height f = height d
    /\ sps_valid d' = sps_valid d /\ pps_valid d' = pps_valid d
    /\ width d' = width d /\ height d' = height d.
Proof.
  intros a d Hs Hp Hw Hh Ha. unfold decode_slice.
  apply Z.eqb_neq in Hs. apply Z.eqb_neq in Hp. rewrite Hs, Hp.
  apply Z.ltb_lt in Hw. apply Z.ltb_lt in Hh. rewrite Hw, Hh.
  cbn [orb andb].
  destruct (negb (frame_buffer d)
            || Z.ltb (frame_buffer_size d)
                 (wrap32 (wrap32 (width d * height d) * 3) / 2)) eqn:E.
  - destruct (Alloc.take a) as [ok a1]. simpl in Ha. subst ok. cbn.
    do 3 eexists. split; [reflexivity|]. cbn. auto 10.
  - apply orb_false_elim in E. destruct E as [E _].
    apply negb_false_iff in E. rewrite E.
    do 3 eexists. split; [reflexivity|]. cbn. auto 10.
Qed.

(** C2, as stated, fails: the one-byte NAL [67] is an SPS NAL (type 7)
    and [68 ce] a PPS NAL (type 8), yet after decoding them in that
    order on a fresh decoder the IDR slice NAL [65 88] is still answered
    with [SIMPLE_H264_PARAM_SET_ERROR]: [parse_sps] refuses an SPS of
    fewer than four bytes and leaves [sps_valid] at 0. *)
Lemma short_sps_keeps_slice_refused :
  simple_h264_get_nal_type [x67] = SIMPLE_H264_NAL_SPS
  /\ simple_h264_get_nal_type [x68; xce] = SIMPLE_H264_NAL_PPS
  /\ simple_h264_get_nal_type [x65; x88] = SIMPLE_H264_NAL_IDR_SLICE
  /\ results_of Alloc.all_ok simple_h264_create [[x67]; [x68; xce]; [x65; x88]]
     = [SIMPLE_H264_PARAM_SET_ERROR; SIMPLE_H264_HEADERS_READY;
        SIMPLE_H264_PARAM_SET_ERROR].
Proof. repeat split. Qed.

(** A baseline SPS whose width code is 2^28 - 1: the stored width
    wraps to 0 and the slice that follows SPS and PPS is answered with
    [SIMPLE_H264_OK], no frame being produced. *)
Example zero_width_sps_gives_no_frame :
  results_of Alloc.all_ok simple_h264_create
    [[x67; x42; x00; x1e; x80; x00; x00; x00; x08; x00; x00; x00; x00; x80; x00];
     [x68; xce]; [x65; x88]]
  = [SIMPLE_H264_HEADERS_READY; SIMPLE_H264_HEADERS_READY; SIMPLE_H264_OK].
Proof. reflexivity. Qed.

(** The gating scenario on a fresh decoder, with a high-profile SPS:
    the slice is refused before the parameter sets and yields a frame
    after them. *)
Example gating_scenario :
  results_of Alloc.all_ok simple_h264_create
    [[x65; x88]; [x67; x64; x00; x1e; xac]; [x68; xce]; [x65; x88]]
  = [SIMPLE_H264_PARAM_SET_ERROR; SIMPLE_H264_HEADERS_READY;
     SIMPLE_H264_HEADERS_READY; SIMPLE_H264_FRAME_READY].
Proof. reflexivity. Qed.

(** C2 (amended): in every decoder state in which the SPS or the PPS
    is not valid, decoding a slice NAL (type 1 or 5) returns
    [SIMPLE_H264_PARAM_SET_ERROR], produces no frame and leaves the
    decoder unchanged; an SPS NAL shorter than four bytes is itself
    answered with [SIMPLE_H264_PARAM_SET_ERROR] and validates nothing;
    after decoding an SPS NAL of at least four bytes and then a PPS NAL,
    decoding the slice NAL with a frame output returns
    [SIMPLE_H264_FRAME_READY] provided the dimensions stored by the SPS
    are non-zero (they are 1920x1080 outside the baseline profile) and
    the frame buffer allocation does not fail. *)
Theorem slice_gated_on_parameter_sets :
  (forall a d slice frame,
      is_slice_nal slice ->
      sps_valid d = 0 \/ pps_valid d = 0 ->
      simple_h264_decode a (Some d) (Some slice) frame
      = (SIMPLE_H264_PARAM_SET_ERROR, a, Some d, None))
  /\ (forall a d sps frame,
        simple_h264_get_nal_type sps = SIMPLE_H264_NAL_SPS ->
        (List.length sps < 4)%nat ->
        simple_h264_decode a (Some d) (Some sps) frame
        = (SIMPLE_H264_PARAM_SET_ERROR, a, Some d, None))
  /\ (forall a d sps pps slice,
        simple_h264_get_nal_type sps = SIMPLE_H264_NAL_SPS ->
        simple_h264_get_nal_type pps = SIMPLE_H264_NAL_PPS ->
        is_slice_nal slice ->
        (4 <= List.length sps)%nat ->
        0 < width (snd (parse_sps d sps)) ->
        0 < height (snd (parse_sps d sps)) ->
        fst (Alloc.take a) = true ->
        results_of a d [sps; pps; slice]
        = [SIMPLE_H264_HEADERS_READY; SIMPLE_H264_HEADERS_READY;
           SIMPLE_H264_FRAME_READY])
  /\ (forall a d sps pps slice,
        simple_h264_get_nal_type sps = SIMPLE_H264_NAL_SPS ->
        simple_h264_get_nal_type pps = SIMPLE_H264_NAL_PPS ->
        is_slice_nal slice ->
        (4 <= List.length sps)%nat ->
        byte_at sps 1 <> 66 ->
        fst (Alloc.take a) = true ->
        results_of a d [sps; pps; slice]
        = [SIMPLE_H264_HEADERS_READY; SIMPLE_H264_HEADERS_READY;
           SIMPLE_H264_FRAME_READY]).
Proof.
  assert (Hrun : forall a d sps pps slice,
             simple_h264_get_nal_type sps = SIMPLE_H264_NAL_SPS ->
             simple_h264_get_nal_type pps = SIMPLE_H264_NAL_PPS ->
             is_slice_nal slice ->
             (4 <= List.length sps)%nat ->
             0 < width (snd (parse_sps d sps)) ->
             0 < height (snd (parse_sps d sps)) ->
             fst (Alloc.take a) = true ->
             results_of a d [sps; pps; slice]
             = [SIMPLE_H264_HEADERS_READY; SIMPLE_H264_HEADERS_READY;
                SIMPLE_H264_FRAME_READY]).
  { intros a d sps pps slice Hs Hp Hsl Hlen Hw Hh Ha.
    unfold results_of. cbn [decode_sequence].
    rewrite (decode_sps a d sps true Hs).
    destruct (parse_sps_accepts d sps Hlen) as (Hok & Hsv & _).
    rewrite Hok.
    set (d1 := snd (parse_sps d sps)) in *.
    rewrite (decode_pps a d1 pps true Hp).
    rewrite (decode_slice_nal a _ slice true Hsl).
    match goal with
    | |- context [decode_slice a ?d2 true] =>
        destruct (slice_accepted a d2) as (a' & d' & f & Hdec & _);
          [ cbn; rewrite Hsv; discriminate | cbn; discriminate
          | exact Hw | exact Hh | exact Ha | rewrite Hdec ]
    end.
    reflexivity. }
  split; [|split; [|split]].
  - intros a d slice frame Hsl Hinv.
    rewrite (decode_slice_nal a d slice frame Hsl).
    rewrite (slice_refused a d frame Hinv). reflexivity.
  - intros a d sps frame Hs Hlen.
    rewrite (decode_sps a d sps frame Hs).
    rewrite (parse_sps_rejects d sps Hlen). reflexivity.
  - exact Hrun.
  - intros a d sps pps slice Hs Hp Hsl Hlen Hprof Ha.
    destruct (parse_sps_fallback d sps Hlen Hprof) as [Hw Hh].
    apply Hrun; auto; [rewrite Hw | rewrite Hh]; reflexivity.
Qed.

End SimpleH264Facts.

(* ================================================================== *)
(** * Properties of variant selection *)
(* ================================================================== *)

Module TwitchFacts.

Import Twitch.
Open Scope Z_scope.

Section Selection.

Variable list : list variant.

(** Effective height and bandwidth of [list[j]]. *)
Definition eh (j : nat) : Z := effective_height (at_index list j).
Definition bw (j : nat) : Z := bandwidth (at_index list j).

(** What the loop knows about [best_idx = b] once the indices below [i]
    have been examined:
    - [b] has the smallest effective height;
    - among the entries of that height with a non-zero bandwidth, [b]
      has the smallest bandwidth, when its own is non-zero;
    - when the bandwidth of [b] is 0, every earlier entry is strictly
      higher: [b] was never chosen on a tie;
    - the first entry of the smallest height, when its bandwidth is 0,
      is [b]: it is never displaced on a tie. *)
Definition selected (i b : nat) : Prop :=
  (b < i)%nat
  /\ (forall j, (j < i)%nat -> eh b <= eh j)
  /\ (forall j, (j < i)%nat -> eh j = eh b -> bw b <> 0 -> bw j <> 0 -> bw b <= bw j)
  /\ (bw b = 0 -> forall j, (j < b)%nat -> eh b < eh j)
  /\ (forall j, (j < i)%nat -> (forall j', (j' < j)%nat -> eh j < eh j') ->
        eh j = eh b -> bw j = 0 -> b = j).

Lemma selected_first : selected 1 0.
Proof.
  unfold selected. repeat split; intros.
  - lia.
  - assert (j = 0)%nat by lia. subst. lia.
  - assert (j = 0)%nat by lia. subst. lia.
  - lia.
  - lia.
Qed.

Lemma select_step_cases : forall i b,
  (select_step list i b = i
   /\ (eh i < eh b \/ (eh i = eh b /\ bw i <> 0 /\ bw b <> 0 /\ bw i < bw b)))
  \/ (select_step list i b = b
      /\ eh b <= eh i
      /\ (eh i = eh b -> bw i <> 0 -> bw b <> 0 -> bw b <= bw i)).
Proof.
  intros i b. unfold select_step. fold (eh i) (eh b) (bw i) (bw b).
  destruct (Z.ltb_spec (eh i) (eh b)).
  - left. auto.
  - destruct (Z.eqb_spec (eh i) (eh b)).
    + destruct (Z.eqb_spec (bw i) 0); cbn [negb andb].
      * right. repeat split; try lia.
      * destruct (Z.eqb_spec (bw b) 0); cbn [negb andb].
        -- right. repeat split; try lia.
        -- destruct (Z.ltb_spec (bw i) (bw b)).
           ++ left. split; [reflexivity|]. right. auto.
           ++ right. repeat split; try lia.
    + right. repeat split; try lia.
Qed.

Lemma selected_step : forall i b,
  selected i b -> selected (S i) (select_step list i b).
Proof.
  intros i b (Hb & Hmin & Htie & Hzero & Hkeep).
  destruct (select_step_cases i b) as [[-> Hwin] | (-> & Hle & Hnot)].
  - (* the entry at [i] becomes the best one *)
    unfold selected. split; [lia|]. split; [|split; [|split]].
    + intros j Hj. destruct (Nat.eq_dec j i) as [->|]; [lia|].
      specialize (Hmin j ltac:(lia)). lia.
    + intros j Hj Heq Hbi Hbj. destruct (Nat.eq_dec j i) as [->|]; [lia|].
      destruct Hwin as [Hlt | (He & _ & Hbb & Hlt)].
      * specialize (Hmin j ltac:(lia)). lia.
      * specialize (Htie j ltac:(lia) ltac:(lia) Hbb Hbj). lia.
    + intros Hz j Hj. destruct Hwin as [Hlt | (_ & Hnz & _)]; [|contradiction].
      specialize (Hmin j ltac:(lia)). lia.
    + intros j Hj Hfirst Heq Hz. destruct (Nat.eq_dec j i) as [->|]; [reflexivity|].
      exfalso. destruct Hwin as [Hlt | (He & Hnz & Hbb & _)].
      * specialize (Hmin j ltac:(lia)). lia.
      * assert (b = j) by (apply Hkeep; [lia | exact Hfirst | lia | exact Hz]).
        subst j. contradiction.
  - (* the best entry is kept *)
    unfold selected. split; [lia|]. split; [|split; [|split]].
    + intros j Hj. destruct (Nat.eq_dec j i) as [->|]; [lia|].
      apply Hmin. lia.
    + intros j Hj Heq Hbb Hbj. destruct (Nat.eq_dec j i) as [->|].
      * apply Hnot; assumption.
      * apply Htie; [lia | assumption..].
    + exact Hzero.
    + intros j Hj Hfirst Heq Hz. destruct (Nat.eq_dec j i) as [->|].
      * specialize (Hfirst b Hb). lia.
      * apply Hkeep; [lia | assumption..].
Qed.

Lemma selected_loop : forall k i b,
  selected i b -> selected (i + k) (select_loop list k i b).
Proof.
  induction k as [|k IH]; intros i b H; simpl.
  - rewrite Nat.add_0_r. exact H.
  - replace (i + S k)%nat with (S i + k)%nat by lia.
    apply IH, selected_step, H.
Qed.

Lemma best_index_selected : forall r,
  best_index list = Some r -> selected (List.length list) r.
Proof.
  intros r H. unfold best_index in H.
  assert (Hlen : (1 <= List.length list)%nat)
    by (destruct list; [discriminate | simpl; lia]).
  assert (Hr : r = select_loop list (List.length list - 1) 1 0)
    by (destruct list; [discriminate | inversion H; reflexivity]).
  subst r.
  pose proof (selected_loop (List.length list - 1) 1 0 selected_first) as Hs.
  replace (1 + (List.length list - 1))%nat with (List.length list) in Hs by lia.
  exact Hs.
Qed.

End Selection.

(** Two variants of the same height, one without a [BANDWIDTH]
    attribute. *)
Definition variant_no_bandwidth : variant :=
  mk_variant (Some "https://cdn.example/360p_a.m3u8") 0 360.
Definition variant_500k : variant :=
  mk_variant (Some "https://cdn.example/360p_b.m3u8") 500000 360.

(** C8, as stated, fails: of two variants of equal height the one whose
    bandwidth is 0 (absent) is selected when it comes first, although
    the other has the smallest declared bandwidth; and the same two
    variants in the other order select the other URI, so the result is
    not determined by the set of variants alone. *)
Lemma zero_bandwidth_first_is_selected :
  pick_lowest_variant [variant_no_bandwidth; variant_500k]
  = Some "https://cdn.example/360p_a.m3u8"
  /\ effective_height variant_no_bandwidth = effective_height variant_500k
  /\ bandwidth variant_no_bandwidth = 0
  /\ pick_lowest_variant [variant_500k; variant_no_bandwidth]
     = Some "https://cdn.example/360p_b.m3u8".
Proof. repeat split. Qed.

(** C8 (amended): for a master playlist with at least one variant the
    selection returns the URI of an entry [r] of the variant array such
    that
    - [r] has the smallest height, an absent (0) height counting as
      [INT_MAX];
    - when the bandwidth of [r] is non-zero, it is the smallest among the
      non-zero bandwidths of the entries of that height;
    - an entry whose bandwidth is 0 or absent is selected only when
      every entry before it is strictly higher (it never displaces an
      earlier entry on a tie);
    - the first entry of the smallest height is kept when its bandwidth
      is 0 or absent (no later entry displaces it on a tie).
    The result is a function of the variant array in playlist order. *)
Theorem lowest_variant_selection : forall vs : list variant,
  vs <> [] ->
  exists r,
    best_index vs = Some r
    /\ pick_lowest_variant vs = uri (at_index vs r)
    /\ (r < List.length vs)%nat
    /\ (forall j, (j < List.length vs)%nat -> eh vs r <= eh vs j)
    /\ (forall j, (j < List.length vs)%nat -> eh vs j = eh vs r ->
          bw vs r <> 0 -> bw vs j <> 0 -> bw vs r <= bw vs j)
    /\ (bw vs r = 0 -> forall j, (j < r)%nat -> eh vs r < eh vs j)
    /\ (forall j, (j < List.length vs)%nat ->
          (forall j', (j' < j)%nat -> eh vs j < eh vs j') ->
          eh vs j = eh vs r -> bw vs j = 0 -> r = j).
Proof.
  intros vs Hne.
  destruct (best_index vs) as [r|] eqn:E.
  - exists r. split; [reflexivity|]. split.
    + unfold pick_lowest_variant. rewrite E. reflexivity.
    + exact (best_index_selected vs r E).
  - destruct vs; [contradiction | discriminate].
Qed.

Lemma lowest_variant_selection_witness :
  [variant_no_bandwidth; variant_500k] <> []
  /\ exists r,
       best_index [variant_no_bandwidth; variant_500k] = Some r
       /\ pick_lowest_variant [variant_no_bandwidth; variant_500k]
          = uri (at_index [variant_no_bandwidth; variant_500k] r)
       /\ (r < List.length [variant_no_bandwidth; variant_500k])%nat
       /\ (forall j, (j < List.length [variant_no_bandwidth; variant_500k])%nat ->
             eh [variant_no_bandwidth; variant_500k] r
             <= eh [variant_no_bandwidth; variant_500k] j)
       /\ (forall j, (j < List.length [variant_no_bandwidth; variant_500k])%nat ->
             eh [variant_no_bandwidth; variant_500k] j
             = eh [variant_no_bandwidth; variant_500k] r ->
             bw [variant_no_bandwidth; variant_500k] r <> 0 ->
             bw [variant_no_bandwidth; variant_500k] j <> 0 ->
             bw [variant_no_bandwidth; variant_500k] r
             <= bw [variant_no_bandwidth; variant_500k] j)
       /\ (bw [variant_no_bandwidth; variant_500k] r = 0 ->
           forall j, (j < r)%nat ->
             eh [variant_no_bandwidth; variant_500k] r
             < eh [variant_no_bandwidth; variant_500k] j)
       /\ (forall j, (j < List.length [variant_no_bandwidth; variant_500k])%nat ->
             (forall j', (j' < j)%nat ->
                eh [variant_no_bandwidth; variant_500k] j
                < eh [variant_no_bandwidth; variant_500k] j') ->
             eh [variant_no_bandwidth; variant_500k] j
             = eh [variant_no_bandwidth; variant_500k] r ->
             bw [variant_no_bandwidth; variant_500k] j = 0 -> r = j).
Proof.
  split.
  - discriminate.
  - apply (lowest_variant_selection [variant_no_bandwidth; variant_500k]).
    discriminate.
Defined.

End TwitchFacts.

(* ================================================================== *)
(** * Properties of NAL extraction and of segment routing *)
(* ================================================================== *)

Module PlayerFacts.

Import SimpleH264 Player.
Open Scope Z_scope.

(** The Annex-B payload [00 00 01 67 AA 00 00 01 68 BB]. *)
Definition sps_pps_payload : list byte :=
  [x00; x00; x01; x67; xaa; x00; x00; x01; x68; xbb].

(** A world in H.264 mode with a freshly created decoder. *)
Definition fresh_world : world :=
  mk_world (Some simple_h264_create) 1 false false false (0, 0) (0, 0) (0, 0)
    0 0 33333 [] [] [] [] [].

(** The look-ahead for the end of a NAL unit stops three bytes before
    the end of the buffer: the length it returns is 0 or leaves at least
    three bytes behind it. *)
Lemma find_next_stops_short : forall l,
  find_next l = O \/ (find_next l + 3 <= List.length l)%nat.
Proof.
  induction l as [|b t IH]; [left; reflexivity|].
  cbn [find_next]. unfold room.
  destruct (Nat.ltb 3 (List.length (b :: t))) eqn:E; [|left; reflexivity].
  destruct (is_sc3 (b :: t) || (Nat.ltb 4 (List.length (b :: t)) && is_sc4 (b :: t)));
    [left; reflexivity|].
  right. apply Nat.ltb_lt in E. simpl in *. destruct IH as [-> | IH]; lia.
Qed.

(** ** The scans never run out of fuel *)

Lemma find_start_bounds : forall l off,
  find_start l = Some off -> (3 <= off <= List.length l)%nat.
Proof.
  induction l as [|b t IH]; intros off H; cbn [find_start] in H; [discriminate|].
  unfold room in H.
  destruct (Nat.ltb 3 (List.length (b :: t))) eqn:E3; [|discriminate].
  apply Nat.ltb_lt in E3.
  destruct (is_sc3 (b :: t)).
  - inversion H; subst. lia.
  - destruct (Nat.ltb 4 (List.length (b :: t)) && is_sc4 (b :: t)) eqn:E4.
    + inversion H; subst. apply andb_true_iff in E4. destruct E4 as [E4 _].
      apply Nat.ltb_lt in E4. lia.
    + destruct (find_start t) as [o|] eqn:Et; [|discriminate].
      inversion H; subst. specialize (IH o eq_refl). simpl. lia.
Qed.

(** Any fuel of at least the length of the buffer gives the same
    units: the bound used by [annexb_units] cuts no iteration short. *)
Lemma annexb_scan_fuel : forall fuel fuel' s,
  (List.length s <= fuel)%nat -> (List.length s <= fuel')%nat ->
  annexb_scan fuel s = annexb_scan fuel' s.
Proof.
  induction fuel as [|fuel IH]; intros fuel' s H H'.
  - destruct s; [|simpl in H; lia]. destruct fuel'; reflexivity.
  - destruct fuel' as [|fuel'].
    + destruct s; [reflexivity | simpl in H'; lia].
    + cbn [annexb_scan]. destruct (room 3 s); [|reflexivity].
      destruct (find_start s) as [off|] eqn:Es; [|reflexivity].
      apply find_start_bounds in Es.
      assert (Hlen : (List.length (skipn (find_next (skipn off s)) (skipn off s))
                      <= List.length s - 3)%nat).
      { rewrite !length_skipn. lia. }
      rewrite (IH fuel') by lia. reflexivity.
Qed.

Lemma lenpref_scan_fuel : forall fuel fuel' p,
  (List.length p <= fuel)%nat -> (List.length p <= fuel')%nat ->
  lenpref_scan fuel p = lenpref_scan fuel' p.
Proof.
  induction fuel as [|fuel IH]; intros fuel' p H H'.
  - destruct p; [|simpl in H; lia]. destruct fuel'; reflexivity.
  - destruct fuel' as [|fuel'].
    + destruct p; [reflexivity | simpl in H'; lia].
    + cbn [lenpref_scan].
      destruct (Nat.leb 4 (List.length p)) eqn:E4; [|reflexivity].
      apply Nat.leb_le in E4.
      destruct (Nat.eqb (Z.to_nat (be32 p)) 0
                || Nat.ltb (List.length (skipn 4 p)) (Z.to_nat (be32 p)));
        [reflexivity|].
      f_equal. apply IH; rewrite !length_skipn; lia.
Qed.

Lemma ts_loop_fuel : forall fuel fuel' seg st w,
  (List.length seg <= fuel)%nat -> (List.length seg <= fuel')%nat ->
  ts_loop fuel seg st w = ts_loop fuel' seg st w.
Proof.
  induction fuel as [|fuel IH]; intros fuel' seg st w H H'.
  - destruct seg; [|simpl in H; lia]. destruct fuel'; reflexivity.
  - destruct fuel' as [|fuel'].
    + destruct seg; [reflexivity | simpl in H'; lia].
    + cbn [ts_loop].
      destruct (Nat.leb 188 (List.length seg)) eqn:E; [|reflexivity].
      apply Nat.leb_le in E.
      destruct (ts_packet (firstn 188 seg) st w); try reflexivity.
      apply IH; rewrite length_skipn; lia.
Qed.

Lemma fed_set_quit : forall w, fed (set_quit w) = fed w.
Proof. reflexivity. Qed.

(** What a NAL unit does to the record of decoder inputs. *)
Lemma process_records_nal : forall nal w d,
  h264_decoder w = Some d -> nal <> [] ->
  fed (snd (process_h264_nal_unit nal w)) = (fed w ++ [nal])%list.
Proof.
  intros nal w d Hd Hne. unfold process_h264_nal_unit.
  destruct nal as [|b bs]; [contradiction|]. rewrite Hd.
  unfold decode. rewrite Hd.
  destruct (simple_h264_decode (allocs w) (Some d) (Some (b :: bs)) true)
    as [[[r a] d'] f].
  destruct (picture r f) as [fr|]; [|reflexivity].
  cbn [fst snd].
  set (w1 := set_decoder d' a (fed w ++ [b :: bs])%list w).
  assert (Hfed : forall x, fed (snd (init_video_output x)) = fed x)
    by (intros x; unfold init_video_output; destruct (video_creates x); reflexivity).
  assert (Hrgb : forall x, fed (snd (rgb_for_nal fr x)) = fed x).
  { intros x. unfold rgb_for_nal.
    destruct (negb (rgb_buffer x) || negb (same_dims (last_wh x) fr));
      [destruct (Alloc.take (allocs x)) |]; reflexivity. }
  assert (Hpres : forall x, fed (snd (present x)) = fed x).
  { intros x. unfold present.
    destruct (get_time_us (times x)) as [now ts1].
    destruct (get_time_us ts1) as [after ts2].
    unfold video_poll. cbn.
    destruct (video x); [destruct (polls x)|]; reflexivity. }
  destruct (video w1) eqn:Ev.
  - cbn [negb].
    specialize (Hrgb w1). destruct (rgb_for_nal fr w1) as [ok w3].
    destruct ok; cbn [negb snd] in *; [|exact Hrgb].
    specialize (Hpres w3). destruct (present w3) as [q w4].
    destruct q; cbn [snd] in *; rewrite ?fed_set_quit, Hpres, Hrgb; reflexivity.
  - specialize (Hfed w1). destruct (init_video_output w1) as [okv w2].
    destruct okv; cbn [negb snd] in *; [|exact Hfed].
    specialize (Hrgb w2). destruct (rgb_for_nal fr w2) as [ok w3].
    destruct ok; cbn [negb snd] in *; [|rewrite Hrgb; exact Hfed].
    specialize (Hpres w3). destruct (present w3) as [q w4].
    destruct q; cbn [snd] in *; rewrite ?fed_set_quit, Hpres, Hrgb, Hfed; reflexivity.
Qed.

(** C3: on the Annex-B payload [00 00 01 67 AA 00 00 01 68 BB] the scan
    yields the single NAL unit [67 AA]: the look-ahead that delimits a
    NAL needs four bytes in front of it, so the NAL that follows the
    second start code gets length 0 and is not emitted.  Both the PES
    extraction and the raw fallback hand exactly [67 AA] (type 7) to
    [process_h264_nal_unit] and nothing else; the PPS [68 BB] does not
    reach the decoder.  In any buffer, the length given to a NAL unit is
    0 or stops at least three bytes before the end of the buffer. *)
Theorem annexb_trailing_nal_not_emitted :
  annexb_units sps_pps_payload = [[x67; xaa]]
  /\ get_nal_unit_type [x67; xaa] = SIMPLE_H264_NAL_SPS
  /\ (forall w,
        fallback_extract sps_pps_payload w
        = (None, snd (process_h264_nal_unit [x67; xaa] w)))
  /\ (forall w,
        pes_extract sps_pps_payload w
        = (None, snd (process_h264_nal_unit [x67; xaa] w)))
  /\ (forall w d, h264_decoder w = Some d ->
        fed (snd (fallback_extract sps_pps_payload w)) = (fed w ++ [[x67; xaa]])%list
        /\ fed (snd (pes_extract sps_pps_payload w)) = (fed w ++ [[x67; xaa]])%list)
  /\ fed (snd (hls_segment_callback sps_pps_payload fresh_world))
     = [sps_pps_payload; [x67; xaa]]
  /\ (forall from_nal,
        find_next from_nal = O
        \/ (find_next from_nal + 3 <= List.length from_nal)%nat).
Proof.
  assert (Hf : forall w,
             fallback_extract sps_pps_payload w
             = (None, snd (process_h264_nal_unit [x67; xaa] w)))
    by (intros w; reflexivity).
  assert (Hp : forall w,
             pes_extract sps_pps_payload w
             = (None, snd (process_h264_nal_unit [x67; xaa] w)))
    by (intros w; reflexivity).
  split; [reflexivity|]. split; [reflexivity|].
  split; [exact Hf|]. split; [exact Hp|].
  split; [|split; [reflexivity | exact find_next_stops_short]].
  intros w d Hd. rewrite Hf, Hp. cbn [snd].
  split; apply (process_records_nal _ w d Hd); discriminate.
Qed.

(** With three more bytes behind it the PPS is delimited and emitted. *)
Example padded_payload_emits_both :
  annexb_units (sps_pps_payload ++ [x00; x00; x00]) = [[x67; xaa]; [x68; xbb]].
Proof. reflexivity. Qed.

(** ** Routing *)

(** Three sync bytes spaced 188 bytes apart, starting at [off]. *)
Definition sync_at (seg : list byte) (off : nat) : Prop :=
  (off + 188 * 3 <= List.length seg)%nat
  /\ byte_at seg off = 0x47
  /\ byte_at seg (off + 188) = 0x47
  /\ byte_at seg (off + 376) = 0x47.

(** The sync-byte heuristic: such a triple at an offset below 188. *)
Definition sync_heuristic (seg : list byte) : Prop :=
  exists off, (off < 188)%nat /\ sync_at seg off.

Lemma sync_search_some : forall seg fuel off o,
  sync_search seg fuel off = Some o ->
  (off <= o < off + fuel)%nat /\ sync_at seg o.
Proof.
  intros seg. induction fuel as [|fuel IH]; intros off o H; cbn [sync_search] in H.
  - discriminate.
  - destruct (Nat.ltb (List.length seg) (off + 188 * 3)) eqn:El; [discriminate|].
    apply Nat.ltb_ge in El.
    destruct (Z.eqb_spec (byte_at seg off) 0x47) as [E1|]; cbn [andb] in H.
    + destruct (Z.eqb_spec (byte_at seg (off + 188)) 0x47) as [E2|]; cbn [andb] in H.
      * destruct (Z.eqb_spec (byte_at seg (off + 376)) 0x47) as [E3|].
        -- inversion H; subst o. split; [lia|]. unfold sync_at. auto.
        -- apply IH in H. destruct H as [H1 H2]. split; [lia | exact H2].
      * apply IH in H. destruct H as [H1 H2]. split; [lia | exact H2].
    + apply IH in H. destruct H as [H1 H2]. split; [lia | exact H2].
Qed.

Lemma sync_search_none : forall seg fuel off,
  sync_search seg fuel off = None ->
  forall o, (off <= o < off + fuel)%nat -> ~ sync_at seg o.
Proof.
  intros seg. induction fuel as [|fuel IH]; intros off H o Ho; cbn [sync_search] in H.
  - lia.
  - unfold sync_at.
    destruct (Nat.ltb (List.length seg) (off + 188 * 3)) eqn:El.
    + apply Nat.ltb_lt in El. lia.
    + destruct (Nat.eq_dec o off) as [->|Hne].
      * intros (_ & E1 & E2 & E3). rewrite E1, E2, E3 in H. discriminate.
      * assert (Hrec : sync_search seg fuel (S off) = None).
        { destruct (Z.eqb (byte_at seg off) 0x47
                    && Z.eqb (byte_at seg (off + 188)) 0x47
                    && Z.eqb (byte_at seg (off + 376)) 0x47);
            [discriminate | exact H]. }
        apply (IH (S off) Hrec o). lia.
Qed.

(** The fallback extractor either falls through to the [return 0] of
    the callback or returns 1 on a quit request: it reports no error. *)
Lemma feed_others_no_error : forall mode units w,
  fst (feed_others mode units w) = None \/ fst (feed_others mode units w) = Some 1.
Proof.
  intros mode units. induction units as [|nal rest IH]; intros w; cbn [feed_others].
  - left. reflexivity.
  - destruct (is_parameter_set (get_nal_unit_type nal)); [apply IH|].
    destruct (process_h264_nal_unit nal w) as [shown w1].
    destruct mode; [|apply IH|].
    + destruct (Z.eqb shown 0); [apply IH|].
      destruct (video_poll w1) as [[|] w2]; [right; reflexivity | apply IH].
    + destruct (Z.eqb shown 0); [apply IH|].
      destruct (video_poll w1) as [[|] w2]; [right | left]; reflexivity.
Qed.

(** A single TS packet: one sync byte followed by 187 zero bytes. *)
Definition lone_packet : list byte := x47 :: repeat x00 187.

(** Three TS packets behind one stray byte. *)
Definition shifted_stream : list byte :=
  x00 :: (lone_packet ++ lone_packet ++ lone_packet)%list.

(** C6, as stated, fails: a buffer of 188 bytes starting with 0x47
    does not satisfy the three-sync-byte heuristic (it is too short to
    hold three packets) and is demultiplexed as MPEG-TS all the same;
    and a buffer that satisfies the heuristic at offset 1 but starts
    with another byte goes to the raw fallback. *)
Lemma lone_packet_routed_to_ts :
  ~ sync_heuristic lone_packet
  /\ segment_route lone_packet = RouteTs 0
  /\ sync_heuristic shifted_stream
  /\ segment_route shifted_stream = RouteFallback.
Proof.
  split; [|split; [reflexivity|split; [|reflexivity]]].
  - intros (off & _ & Hlen & _).
    change (List.length lone_packet) with 188%nat in Hlen. lia.
  - exists 1%nat. split; [lia|]. unfold sync_at.
    split; [|repeat split].
    change (List.length shifted_stream) with 565%nat. lia.
Qed.

(** C6 (amended): a segment buffer (for which the decode of the whole
    buffer produced no picture) is demultiplexed as MPEG-TS exactly when
    it holds at least 188 bytes and its first byte is 0x47; the search
    for three sync bytes spaced 188 bytes apart only chooses the offset
    from which the packets are scanned, the first offset below 188 where
    the three bytes are found and offset 0 when there is none.  Every
    other buffer is handed as raw bytes to the Annex-B fallback
    extractor, which reports no error: the callback then returns 0, or
    1 on a quit request.  The last part states where the routing sits in
    [hls_segment_callback]. *)
Theorem segment_routing_rule : forall data : list byte,
  (forall off,
      segment_route data = RouteTs off
      <-> ((188 <= List.length data)%nat /\ byte_at data 0 = 0x47
           /\ off = sync_offset data))
  /\ (segment_route data = RouteFallback
      <-> ~ ((188 <= List.length data)%nat /\ byte_at data 0 = 0x47))
  /\ (forall off, sync_search data 188 0 = Some off ->
        sync_offset data = off /\ (off < 188)%nat /\ sync_at data off
        /\ (forall o, (o < off)%nat -> ~ sync_at data o))
  /\ (sync_search data 188 0 = None ->
        sync_offset data = O /\ ~ sync_heuristic data)
  /\ (forall w, segment_route data = RouteFallback ->
        demux_segment data w = fallback_extract data w
        /\ (fst (demux_segment data w) = None
            \/ fst (demux_segment data w) = Some 1))
  /\ (forall w w0 r f w1,
        video_poll w = (false, w0) ->
        should_quit_hls w0 = false ->
        use_custom_decoder w0 = 1 ->
        decode data w0 = (r, f, w1) ->
        picture r f = None ->
        hls_segment_callback data w
        = (match fst (demux_segment data w1) with Some v => v | None => 0 end,
           snd (demux_segment data w1))).
Proof.
  intros data.
  assert (Hroute : segment_route data
                   = if Nat.leb 188 (List.length data) && Z.eqb (byte_at data 0) 0x47
                     then RouteTs (sync_offset data) else RouteFallback)
    by reflexivity.
  split; [|split; [|split; [|split; [|split]]]].
  - intros off. rewrite Hroute.
    destruct (Nat.leb_spec 188 (List.length data)) as [Hl|Hl];
      destruct (Z.eqb_spec (byte_at data 0) 0x47) as [Hb|Hb]; cbn [andb];
      split; intros H;
      try discriminate H;
      try (destruct H as (H1 & H2 & H3); first [lia | contradiction]).
    + inversion H. auto.
    + destruct H as (_ & _ & ->). reflexivity.
  - rewrite Hroute.
    destruct (Nat.leb_spec 188 (List.length data)) as [Hl|Hl];
      destruct (Z.eqb_spec (byte_at data 0) 0x47) as [Hb|Hb]; cbn [andb];
      split; intros H;
      try discriminate H; try reflexivity;
      try (intros (H1 & H2); first [lia | contradiction]).
    exfalso. apply H. auto.
  - intros off H. unfold sync_offset. rewrite H.
    pose proof (sync_search_some data 188 0 off H) as [Hr Hat].
    split; [reflexivity|]. split; [lia|]. split; [exact Hat|].
    intros o Ho Hso.
    (* an earlier triple would have been returned instead *)
    assert (Hfirst : forall fuel from o',
               sync_search data fuel from = Some o' ->
               forall o'', (from <= o'' < o')%nat -> ~ sync_at data o'').
    { induction fuel as [|fuel IH]; intros from o' Hs o'' Hr'' Hat'';
        cbn [sync_search] in Hs; [discriminate|].
      destruct (Nat.ltb (List.length data) (from + 188 * 3)) eqn:El; [discriminate|].
      destruct (Z.eqb (byte_at data from) 0x47
                && Z.eqb (byte_at data (from + 188)) 0x47
                && Z.eqb (byte_at data (from + 376)) 0x47) eqn:Eb.
      - inversion Hs; subst. lia.
      - destruct (Nat.eq_dec o'' from) as [->|Hne].
        + destruct Hat'' as (_ & E1 & E2 & E3).
          rewrite E1, E2, E3 in Eb. discriminate.
        + apply (IH (S from) o' Hs o''); [lia | exact Hat'']. }
    apply (Hfirst 188%nat 0%nat off H o); [lia | exact Hso].
  - intros H. unfold sync_offset. rewrite H. split; [reflexivity|].
    intros (off & Hlt & Hat).
    apply (sync_search_none data 188 0 H off); [lia | exact Hat].
  - intros w H. unfold demux_segment. rewrite H. split; [reflexivity|].
    unfold fallback_extract, two_pass. apply feed_others_no_error.
  - intros w w0 r f w1 Hpoll Hq Hdec Hd Hpic. unfold hls_segment_callback.
    rewrite Hpoll, Hq, Hdec, Hd, Hpic. cbn [Z.eqb Pos.eqb].
    destruct (demux_segment data w1). reflexivity.
Qed.

End PlayerFacts.

(* ================================================================== *)
(** * Properties of the frame-skip policy *)
(* ================================================================== *)

Module PacingFacts.

Import Pacing.
Open Scope Z_scope.

Lemma sint32_small : forall z, INT_MIN <= z <= INT_MAX -> sint32 z = z.
Proof.
  intros z H. unfold sint32, INT_MIN, INT_MAX in *.
  change (2 ^ 31) with 2147483648. change (2 ^ 32) with 4294967296.
  rewrite Z.mod_small; lia.
Qed.

(** The two branches of the step of src/main.c. *)
Lemma main_step_drops : forall cfg ev st,
  skipping cfg st = true ->
  main_frame_step cfg ev st
  = (Dropped,
     mk_pacing (wrap64 (last_frame_time st + frame_duration_us st))
       (frame_duration_us st) (sint32 (frames_dropped st + 1))
       (frames_displayed st) (sint32 (skip_remaining st - 1)) (should_quit st)).
Proof. intros cfg ev st H. unfold main_frame_step. rewrite H. reflexivity. Qed.

Lemma main_step_displays : forall cfg ev st,
  skipping cfg st = false -> undisturbed ev = true ->
  main_frame_step cfg ev st
  = (Displayed,
     mk_pacing (shown_time ev) (frame_duration_us st) (frames_dropped st)
       (sint32 (frames_displayed st + 1)) (FRAMESKIP_AMOUNT cfg) (should_quit st)).
Proof.
  intros cfg ev st H Hev. unfold main_frame_step. rewrite H.
  unfold undisturbed in Hev.
  apply andb_true_iff in Hev. destruct Hev as [Hev H3].
  apply andb_true_iff in Hev. destruct Hev as [H1 H2].
  apply negb_true_iff in H2, H3. rewrite H1, H2, H3.
  cbn [negb]. rewrite andb_false_r. reflexivity.
Qed.

(** The step of the sibling main file on a skipped frame. *)
Lemma part004_step_drops : forall cfg ev st,
  skipping cfg st = true ->
  part004_frame_step cfg ev st
  = (Dropped,
     mk_pacing (last_frame_time st) (frame_duration_us st)
       (sint32 (frames_dropped st + 1)) (frames_displayed st)
       (sint32 (skip_remaining st - 1)) (should_quit st)).
Proof. intros cfg ev st H. unfold part004_frame_step. rewrite H. reflexivity. Qed.

Lemma skipping_enabled : forall cfg st,
  DISABLE_FRAMESKIP cfg = false -> 0 < FRAMESKIP_AMOUNT cfg ->
  skipping cfg st = Z.ltb 0 (skip_remaining st).
Proof.
  intros cfg st Hd Ha. unfold skipping. rewrite Hd.
  apply Z.ltb_lt in Ha. rewrite Ha. reflexivity.
Qed.

(** A state of the playback loop right after a displayed frame. *)
Definition after_display : pacing := mk_pacing 1000000 33333 0 1 3 false.

Definition calm_frame (t : Z) : frame_env := mk_env t (t + 100) true false false.

(** C5, as stated, fails on src/main.c: a frame dropped while
    [skip_remaining] is 3 moves [last_frame_time] from 1000000 to
    1033333, one frame duration further. *)
Lemma main_skip_advances_last_frame_time :
  main_frame_step default_config (calm_frame 1010000) after_display
  = (Dropped, mk_pacing 1033333 33333 1 1 2 false)
  /\ last_frame_time
       (snd (main_frame_step default_config (calm_frame 1010000) after_display))
     <> last_frame_time after_display.
Proof. split; [reflexivity | discriminate]. Qed.

(** C5 (amended): in a build with frame skipping enabled, a decoded
    frame handled while [skip_remaining > 0] is not rendered
    ([frames_displayed] is unchanged and nothing is drawn), the dropped
    count is incremented and [skip_remaining] is decremented.  In
    src/main.c the playback clock is advanced with it:
    [last_frame_time] grows by one frame duration (modulo 2^64); in the
    sibling main file (unnamed/part_004) [last_frame_time] is left
    unchanged. *)
Theorem skipped_frame_effect : forall cfg ev st,
  DISABLE_FRAMESKIP cfg = false ->
  0 < FRAMESKIP_AMOUNT cfg ->
  0 < skip_remaining st <= INT_MAX ->
  INT_MIN <= frames_dropped st < INT_MAX ->
  main_frame_step cfg ev st
  = (Dropped,
     mk_pacing (wrap64 (last_frame_time st + frame_duration_us st))
       (frame_duration_us st) (frames_dropped st + 1) (frames_displayed st)
       (skip_remaining st - 1) (should_quit st))
  /\ part004_frame_step cfg ev st
     = (Dropped,
        mk_pacing (last_frame_time st) (frame_duration_us st)
          (frames_dropped st + 1) (frames_displayed st)
          (skip_remaining st - 1) (should_quit st)).
Proof.
  intros cfg ev st Hd Ha Hs Hdr.
  assert (Hskip : skipping cfg st = true).
  { rewrite (skipping_enabled cfg st Hd Ha). apply Z.ltb_lt. lia. }
  rewrite (main_step_drops cfg ev st Hskip), (part004_step_drops cfg ev st Hskip).
  rewrite !sint32_small by (unfold INT_MIN, INT_MAX in *; lia).
  split; reflexivity.
Qed.

Lemma skipped_frame_effect_witness :
  DISABLE_FRAMESKIP default_config = false
  /\ 0 < FRAMESKIP_AMOUNT default_config
  /\ 0 < skip_remaining after_display <= INT_MAX
  /\ INT_MIN <= frames_dropped after_display < INT_MAX
  /\ main_frame_step default_config (calm_frame 1010000) after_display
     = (Dropped,
        mk_pacing
          (wrap64 (last_frame_time after_display + frame_duration_us after_display))
          (frame_duration_us after_display) (frames_dropped after_display + 1)
          (frames_displayed after_display) (skip_remaining after_display - 1)
          (should_quit after_display))
  /\ part004_frame_step default_config (calm_frame 1010000) after_display
     = (Dropped,
        mk_pacing (last_frame_time after_display) (frame_duration_us after_display)
          (frames_dropped after_display + 1) (frames_displayed after_display)
          (skip_remaining after_display - 1) (should_quit after_display)).
Proof.
  assert (H1 : DISABLE_FRAMESKIP default_config = false) by reflexivity.
  assert (H2 : 0 < FRAMESKIP_AMOUNT default_config) by reflexivity.
  assert (H3 : 0 < skip_remaining after_display <= INT_MAX)
    by (split; [reflexivity | discriminate]).
  assert (H4 : INT_MIN <= frames_dropped after_display < INT_MAX)
    by (split; [discriminate | reflexivity]).
  split; [exact H1|]. split; [exact H2|]. split; [exact H3|]. split; [exact H4|].
  exact (skipped_frame_effect default_config (calm_frame 1010000) after_display
           H1 H2 H3 H4).
Defined.

(** The expected outcomes of eight frames with a skip amount of 3. *)
Definition one_in_four : list frame_outcome :=
  [Displayed; Dropped; Dropped; Dropped; Displayed; Dropped; Dropped; Dropped].

(** The state of the playback loop of src/main.c when it starts:
    counters at zero, the clock just read. *)
Definition playback_start (now : Z) : pacing := mk_pacing now 33333 0 0 0 false.

(** Eight frames, 40 ms apart, with nothing going wrong. *)
Definition eight_frames : list frame_env :=
  map (fun k => calm_frame (1000000 + 40000 * k)) [1; 2; 3; 4; 5; 6; 7; 8].

(** C4: with [FRAMESKIP_AMOUNT = 3] and frame skipping enabled, from a
    state with [skip_remaining = 0], eight consecutive decoded frames
    handled without failure or quit request come out as displayed, drop,
    drop, drop, displayed, drop, drop, drop: exactly two are displayed
    and six dropped, and the counters move by 2 and by 6; every
    displayed frame leaves [skip_remaining] at the configured amount. *)
Theorem frameskip_pattern_of_eight : forall evs st,
  List.length evs = 8%nat ->
  forallb undisturbed evs = true ->
  skip_remaining st = 0 ->
  INT_MIN <= frames_displayed st <= INT_MAX - 2 ->
  INT_MIN <= frames_dropped st <= INT_MAX - 6 ->
  fst (play (main_frame_step default_config) evs st) = one_in_four
  /\ count_outcome Displayed (fst (play (main_frame_step default_config) evs st)) = 2%nat
  /\ count_outcome Dropped (fst (play (main_frame_step default_config) evs st)) = 6%nat
  /\ frames_displayed (snd (play (main_frame_step default_config) evs st))
     = frames_displayed st + 2
  /\ frames_dropped (snd (play (main_frame_step default_config) evs st))
     = frames_dropped st + 6
  /\ (forall cfg ev s,
        fst (main_frame_step cfg ev s) = Displayed ->
        skip_remaining (snd (main_frame_step cfg ev s)) = FRAMESKIP_AMOUNT cfg).
Proof.
  intros evs st Hlen Hev Hskip Hdisp Hdrop.
  do 8 (destruct evs as [|? evs]; [discriminate Hlen|]).
  destruct evs; [|discriminate Hlen]. clear Hlen.
  cbn [forallb] in Hev.
  apply andb_true_iff in Hev. destruct Hev as [Hu Hev].
  do 3 (apply andb_true_iff in Hev; destruct Hev as [_ Hev]).
  apply andb_true_iff in Hev. destruct Hev as [Hu3 _].
  assert (Hdef : forall s, skipping default_config s = Z.ltb 0 (skip_remaining s))
    by (intros s; apply skipping_enabled; reflexivity).
  (* one displayed frame followed by three dropped ones, from any state
     with [skip_remaining = 0] *)
  assert (Hfour : forall e1 e2 e3 e4 rest s,
             undisturbed e1 = true -> skip_remaining s = 0 ->
             play (main_frame_step default_config) (e1 :: e2 :: e3 :: e4 :: rest) s
             = let (os, s') :=
                 play (main_frame_step default_config) rest
                   (mk_pacing
                      (wrap64 (wrap64 (wrap64 (shown_time e1 + frame_duration_us s)
                                       + frame_duration_us s) + frame_duration_us s))
                      (frame_duration_us s)
                      (sint32 (sint32 (sint32 (frames_dropped s + 1) + 1) + 1))
                      (sint32 (frames_displayed s + 1)) 0 (should_quit s)) in
               (Displayed :: Dropped :: Dropped :: Dropped :: os, s')).
  { intros e1 e2 e3 e4 rest s He1 Hs.
    cbn [play].
    rewrite (main_step_displays default_config e1 s)
      by (try exact He1; rewrite Hdef, Hs; reflexivity).
    rewrite !main_step_drops by (rewrite Hdef; reflexivity).
    cbn -[wrap64 sint32 Z.add].
    destruct (play _ rest _). reflexivity. }
  rewrite (Hfour _ _ _ _ _ st Hu Hskip).
  rewrite (Hfour _ _ _ _ _ _ Hu3) by reflexivity.
  cbn [play fst snd frames_displayed frames_dropped frame_duration_us].
  repeat match goal with
         | |- context [sint32 ?z] =>
             rewrite (sint32_small z) by (unfold INT_MIN, INT_MAX in *; lia)
         end.
  unfold INT_MIN, INT_MAX in *.
  split; [reflexivity|]. split; [reflexivity|]. split; [reflexivity|].
  split; [lia|]. split; [lia|].
  intros cfg ev s. unfold main_frame_step.
  destruct (skipping cfg s); [discriminate|].
  destruct (negb (setup_ok ev)); [discriminate|].
  destruct (poll_after_draw ev); [discriminate|].
  destruct (Z.eqb (Z.rem (sint32 (frames_displayed s + 1)) 5) 0 && poll_fifth ev);
    [discriminate | reflexivity].
Qed.

Lemma frameskip_pattern_of_eight_witness :
  List.length eight_frames = 8%nat
  /\ forallb undisturbed eight_frames = true
  /\ skip_remaining (playback_start 1000000) = 0
  /\ fst (play (main_frame_step default_config) eight_frames (playback_start 1000000))
     = one_in_four
  /\ frames_displayed
       (snd (play (main_frame_step default_config) eight_frames
               (playback_start 1000000))) = 2
  /\ frames_dropped
       (snd (play (main_frame_step default_config) eight_frames
               (playback_start 1000000))) = 6.
Proof.
  assert (H1 : List.length eight_frames = 8%nat) by reflexivity.
  assert (H2 : forallb undisturbed eight_frames = true) by reflexivity.
  assert (H3 : skip_remaining (playback_start 1000000) = 0) by reflexivity.
  assert (H4 : INT_MIN <= frames_displayed (playback_start 1000000) <= INT_MAX - 2)
    by (split; discriminate).
  assert (H5 : INT_MIN <= frames_dropped (playback_start 1000000) <= INT_MAX - 6)
    by (split; discriminate).
  pose proof (frameskip_pattern_of_eight eight_frames (playback_start 1000000)
                H1 H2 H3 H4 H5) as (K1 & _ & _ & K4 & K5 & _).
  split; [exact H1|]. split; [exact H2|]. split; [exact H3|].
  split; [exact K1|]. split; [exact K4 | exact K5].
Defined.

End PacingFacts.

(* ================================================================== *)
(** * Further properties of the frame-skip policy *)
(* ================================================================== *)

Module PacingPeriod.

Import Pacing.
Open Scope Z_scope.

(** The outcomes of [len] undisturbed frames when [r] frames are still
    to be skipped and [n] are skipped after each displayed one. *)
Fixpoint cadence (n r len : nat) : list frame_outcome :=
  match len with
  | O => []
  | S len' =>
      match r with
      | O => Displayed :: cadence n n len'
      | S r' => Dropped :: cadence n r' len'
      end
  end.

Lemma cadence_length : forall n len r, List.length (cadence n r len) = len.
Proof.
  intros n. induction len as [|len IH]; intros r; simpl; [reflexivity|].
  destruct r; simpl; rewrite IH; reflexivity.
Qed.

(** Position [k] of a cadence: dropped while the pending skips last,
    then displayed once every [n + 1] frames. *)
Lemma cadence_nth : forall n len r k,
  (k < len)%nat ->
  nth k (cadence n r len) Abandoned
  = if Nat.ltb k r then Dropped
    else if Nat.eqb ((k - r) mod (S n)) 0 then Displayed else Dropped.
Proof.
  intros n. induction len as [|len IH]; intros r k Hk; [lia|].
  destruct r as [|r]; destruct k as [|k]; cbn [cadence nth].
  - rewrite Nat.sub_0_r, Nat.Div0.mod_0_l. reflexivity.
  - rewrite IH by lia. rewrite Nat.sub_0_r.
    change (Nat.ltb (S k) 0) with false. cbv iota.
    destruct (Nat.ltb_spec k n) as [Hlt|Hge].
    + rewrite (Nat.mod_small (S k) (S n)) by lia. reflexivity.
    + replace (S k) with ((k - n) + 1 * S n)%nat at 1 by lia.
      rewrite Nat.Div0.mod_add. reflexivity.
  - reflexivity.
  - rewrite IH by lia. reflexivity.
Qed.

Lemma sint32_in_range : forall z, INT_MIN <= z <= INT_MAX -> sint32 z = z.
Proof.
  intros z H. unfold sint32, INT_MIN, INT_MAX in *.
  change (2 ^ 31) with 2147483648. change (2 ^ 32) with 4294967296.
  rewrite Z.mod_small; lia.
Qed.

Lemma undisturbed_parts : forall ev,
  undisturbed ev = true ->
  setup_ok ev = true /\ poll_after_draw ev = false /\ poll_fifth ev = false.
Proof.
  intros ev H. unfold undisturbed in H.
  apply andb_true_iff in H. destruct H as [H H3].
  apply andb_true_iff in H. destruct H as [H1 H2].
  apply negb_true_iff in H2, H3. auto.
Qed.

(** One undisturbed frame in src/main.c with skipping enabled. *)
Lemma main_step_enabled : forall n ev st,
  0 <= n <= INT_MAX -> 0 <= skip_remaining st <= n -> undisturbed ev = true ->
  (skip_remaining st = 0
   /\ fst (main_frame_step (mk_config n false) ev st) = Displayed
   /\ skip_remaining (snd (main_frame_step (mk_config n false) ev st)) = n
   /\ frames_displayed (snd (main_frame_step (mk_config n false) ev st))
      = sint32 (frames_displayed st + 1)
   /\ frames_dropped (snd (main_frame_step (mk_config n false) ev st))
      = frames_dropped st)
  \/ (0 < skip_remaining st
      /\ fst (main_frame_step (mk_config n false) ev st) = Dropped
      /\ skip_remaining (snd (main_frame_step (mk_config n false) ev st))
         = skip_remaining st - 1
      /\ frames_displayed (snd (main_frame_step (mk_config n false) ev st))
         = frames_displayed st
      /\ frames_dropped (snd (main_frame_step (mk_config n false) ev st))
         = sint32 (frames_dropped st + 1)).
Proof.
  intros n ev st Hn Hs Hev.
  destruct (undisturbed_parts ev Hev) as (H1 & H2 & H3).
  unfold main_frame_step, skipping. cbn [DISABLE_FRAMESKIP FRAMESKIP_AMOUNT negb andb].
  destruct (Z.ltb_spec 0 (skip_remaining st)) as [Hpos|Hzero].
  - right. destruct (Z.ltb_spec 0 n) as [_|Hn0]; [|lia].
    cbn [fst snd skip_remaining frames_displayed frames_dropped].
    rewrite (sint32_in_range (skip_remaining st - 1))
      by (unfold INT_MIN, INT_MAX in *; lia).
    auto.
  - left. rewrite andb_false_r, H1, H2, H3. cbn [negb]. rewrite andb_false_r.
    cbn [fst snd skip_remaining frames_displayed frames_dropped].
    repeat split; lia.
Qed.

Lemma play_cons : forall step ev evs st,
  fst (step ev st) <> DisplayedQuit ->
  play step (ev :: evs) st
  = (fst (step ev st) :: fst (play step evs (snd (step ev st))),
     snd (play step evs (snd (step ev st)))).
Proof.
  intros step ev evs st H. cbn [play].
  destruct (step ev st) as [o st']. cbn [fst snd] in *.
  destruct (play step evs st') as [os st''].
  destruct o; try reflexivity. contradiction.
Qed.

Lemma play_cadence : forall n evs st,
  0 <= n <= INT_MAX -> 0 <= skip_remaining st <= n ->
  forallb undisturbed evs = true ->
  fst (play (main_frame_step (mk_config n false)) evs st)
  = cadence (Z.to_nat n) (Z.to_nat (skip_remaining st)) (List.length evs).
Proof.
  intros n evs. induction evs as [|ev evs IH]; intros st Hn Hs Hev; [reflexivity|].
  cbn [forallb] in Hev. apply andb_true_iff in Hev. destruct Hev as [Hev Hrest].
  destruct (main_step_enabled n ev st Hn Hs Hev)
    as [(Hz & Ho & Hsk & _) | (Hpos & Ho & Hsk & _)].
  - rewrite play_cons by (rewrite Ho; discriminate).
    cbn [fst List.length cadence]. rewrite Ho, Hz. cbn [Z.to_nat].
    rewrite IH by (rewrite ?Hsk; auto; lia). rewrite Hsk. reflexivity.
  - rewrite play_cons by (rewrite Ho; discriminate).
    cbn [fst List.length cadence]. rewrite Ho.
    destruct (Z.to_nat (skip_remaining st)) as [|r] eqn:Er; [lia|].
    rewrite IH by (rewrite ?Hsk; auto; lia). rewrite Hsk.
    replace (Z.to_nat (skip_remaining st - 1)) with r by lia. reflexivity.
Qed.

(** X1: in src/main.c with frame skipping enabled and any skip amount
    [n >= 0], from a state with [skip_remaining = 0], undisturbed frames
    are displayed exactly at the positions that are multiples of
    [n + 1] and dropped everywhere else. *)
Theorem frameskip_cadence : forall n evs st k,
  0 <= n <= INT_MAX ->
  skip_remaining st = 0 ->
  forallb undisturbed evs = true ->
  (k < List.length evs)%nat ->
  List.length (fst (play (main_frame_step (mk_config n false)) evs st))
  = List.length evs
  /\ nth k (fst (play (main_frame_step (mk_config n false)) evs st)) Abandoned
     = if Nat.eqb (k mod (S (Z.to_nat n))) 0 then Displayed else Dropped.
Proof.
  intros n evs st k Hn Hs Hev Hk.
  rewrite (play_cadence n evs st Hn) by (auto; lia).
  rewrite Hs. cbn [Z.to_nat]. split; [apply cadence_length|].
  rewrite cadence_nth by exact Hk. cbn [Nat.ltb Nat.leb].
  rewrite Nat.sub_0_r. reflexivity.
Qed.

Definition ten_frames : list frame_env :=
  map (fun k => mk_env (40000 * k) (40000 * k + 100) true false false)
    [1; 2; 3; 4; 5; 6; 7; 8; 9; 10].

Lemma frameskip_cadence_witness :
  0 <= 4 <= INT_MAX
  /\ skip_remaining (mk_pacing 0 33333 0 0 0 false) = 0
  /\ forallb undisturbed ten_frames = true
  /\ (5 < List.length ten_frames)%nat
  /\ List.length
       (fst (play (main_frame_step (mk_config 4 false)) ten_frames
               (mk_pacing 0 33333 0 0 0 false)))
     = List.length ten_frames
  /\ nth 5
       (fst (play (main_frame_step (mk_config 4 false)) ten_frames
               (mk_pacing 0 33333 0 0 0 false))) Abandoned
     = if Nat.eqb (5 mod (S (Z.to_nat 4))) 0 then Displayed else Dropped.
Proof.
  assert (H1 : 0 <= 4 <= INT_MAX) by (split; discriminate).
  assert (H2 : skip_remaining (mk_pacing 0 33333 0 0 0 false) = 0) by reflexivity.
  assert (H3 : forallb undisturbed ten_frames = true) by reflexivity.
  assert (H4 : (5 < List.length ten_frames)%nat) by (simpl; lia).
  split; [exact H1|]. split; [exact H2|]. split; [exact H3|]. split; [exact H4|].
  exact (frameskip_cadence 4 ten_frames (mk_pacing 0 33333 0 0 0 false) 5
           H1 H2 H3 H4).
Defined.

(** X2: in src/main.c with frame skipping enabled, every undisturbed
    decoded frame is counted exactly once, either as displayed or as
    dropped: as long as the counters stay within [int], their sum grows
    by the number of frames handled and neither counter decreases. *)
Theorem every_frame_is_counted : forall n evs st,
  0 <= n <= INT_MAX ->
  0 <= skip_remaining st <= n ->
  forallb undisturbed evs = true ->
  INT_MIN <= frames_displayed st ->
  frames_displayed st + Z.of_nat (List.length evs) <= INT_MAX ->
  INT_MIN <= frames_dropped st ->
  frames_dropped st + Z.of_nat (List.length evs) <= INT_MAX ->
  frames_displayed (snd (play (main_frame_step (mk_config n false)) evs st))
  + frames_dropped (snd (play (main_frame_step (mk_config n false)) evs st))
  = frames_displayed st + frames_dropped st + Z.of_nat (List.length evs)
  /\ frames_displayed st
     <= frames_displayed (snd (play (main_frame_step (mk_config n false)) evs st))
  /\ frames_dropped st
     <= frames_dropped (snd (play (main_frame_step (mk_config n false)) evs st)).
Proof.
  intros n evs. induction evs as [|ev evs IH];
    intros st Hn Hs Hev Hd1 Hd2 Hr1 Hr2.
  - cbn [play snd List.length Z.of_nat]. lia.
  - cbn [forallb] in Hev. apply andb_true_iff in Hev. destruct Hev as [Hev Hrest].
    cbn [List.length] in Hd2, Hr2 |- *. rewrite Nat2Z.inj_succ in Hd2, Hr2 |- *.
    destruct (main_step_enabled n ev st Hn Hs Hev)
      as [(Hz & Ho & Hsk & Hfd & Hfr) | (Hpos & Ho & Hsk & Hfd & Hfr)];
      rewrite play_cons by (rewrite Ho; discriminate); cbn [snd];
      rewrite sint32_in_range in * by (unfold INT_MIN, INT_MAX in *; lia);
      specialize (IH (snd (main_frame_step (mk_config n false) ev st)) Hn);
      rewrite Hsk, Hfd, Hfr in IH;
      specialize (IH ltac:(lia) Hrest ltac:(lia) ltac:(lia) ltac:(lia) ltac:(lia));
      lia.
Qed.

Lemma every_frame_is_counted_witness :
  0 <= 4 <= INT_MAX
  /\ 0 <= skip_remaining (mk_pacing 0 33333 0 0 0 false) <= 4
  /\ forallb undisturbed ten_frames = true
  /\ frames_displayed
       (snd (play (main_frame_step (mk_config 4 false)) ten_frames
               (mk_pacing 0 33333 0 0 0 false)))
     + frames_dropped
         (snd (play (main_frame_step (mk_config 4 false)) ten_frames
                 (mk_pacing 0 33333 0 0 0 false)))
     = frames_displayed (mk_pacing 0 33333 0 0 0 false)
       + frames_dropped (mk_pacing 0 33333 0 0 0 false)
       + Z.of_nat (List.length ten_frames).
Proof.
  assert (H1 : 0 <= 4 <= INT_MAX) by (split; discriminate).
  assert (H2 : 0 <= skip_remaining (mk_pacing 0 33333 0 0 0 false) <= 4)
    by (split; discriminate).
  assert (H3 : forallb undisturbed ten_frames = true) by reflexivity.
  split; [exact H1|]. split; [exact H2|]. split; [exact H3|].
  refine (proj1 (every_frame_is_counted 4 ten_frames
                   (mk_pacing 0 33333 0 0 0 false) H1 H2 H3 _ _ _ _));
    discriminate.
Defined.

(** X3: in a build of src/main.c with [DISABLE_FRAMESKIP], or with a
    skip amount that is not positive, no undisturbed frame is dropped:
    every one is displayed and the dropped count does not move, whatever
    [skip_remaining] holds. *)
Theorem no_skip_when_disabled : forall cfg evs st,
  DISABLE_FRAMESKIP cfg = true \/ FRAMESKIP_AMOUNT cfg <= 0 ->
  forallb undisturbed evs = true ->
  fst (play (main_frame_step cfg) evs st) = repeat Displayed (List.length evs)
  /\ frames_dropped (snd (play (main_frame_step cfg) evs st)) = frames_dropped st.
Proof.
  intros cfg evs. induction evs as [|ev evs IH]; intros st Hcfg Hev.
  - split; reflexivity.
  - cbn [forallb] in Hev. apply andb_true_iff in Hev. destruct Hev as [Hev Hrest].
    assert (Hskip : skipping cfg st = false).
    { unfold skipping. destruct Hcfg as [-> | H]; [reflexivity|].
      destruct (Z.ltb_spec 0 (FRAMESKIP_AMOUNT cfg)); [lia|].
      rewrite andb_false_r. reflexivity. }
    pose proof (PacingFacts.main_step_displays cfg ev st Hskip Hev) as Hstep.
    rewrite play_cons by (rewrite Hstep; discriminate).
    rewrite Hstep. cbn [fst snd List.length repeat].
    destruct (IH (mk_pacing (shown_time ev) (frame_duration_us st)
                    (frames_dropped st) (sint32 (frames_displayed st + 1))
                    (FRAMESKIP_AMOUNT cfg) (should_quit st)) Hcfg Hrest)
      as [IH1 IH2].
    rewrite IH1, IH2. split; reflexivity.
Qed.

Lemma no_skip_when_disabled_witness :
  (DISABLE_FRAMESKIP (mk_config 3 true) = true
   \/ FRAMESKIP_AMOUNT (mk_config 3 true) <= 0)
  /\ forallb undisturbed ten_frames = true
  /\ fst (play (main_frame_step (mk_config 3 true)) ten_frames
            (mk_pacing 0 33333 0 0 2 false))
     = repeat Displayed (List.length ten_frames)
  /\ frames_dropped
       (snd (play (main_frame_step (mk_config 3 true)) ten_frames
               (mk_pacing 0 33333 0 0 2 false)))
     = frames_dropped (mk_pacing 0 33333 0 0 2 false).
Proof.
  assert (H1 : DISABLE_FRAMESKIP (mk_config 3 true) = true
               \/ FRAMESKIP_AMOUNT (mk_config 3 true) <= 0)
    by (left; reflexivity).
  assert (H2 : forallb undisturbed ten_frames = true) by reflexivity.
  split; [exact H1|]. split; [exact H2|].
  exact (no_skip_when_disabled (mk_config 3 true) ten_frames
           (mk_pacing 0 33333 0 0 2 false) H1 H2).
Defined.

End PacingPeriod.

(* ================================================================== *)
(** * Further properties of the playlist parser *)
(* ================================================================== *)

Module HlsParserMore.

Import HlsParser.

(** ** [trim] *)

Lemma skip_leading_head : forall s c r,
  skip_leading s = String c r -> isspace c = false.
Proof.
  induction s as [|a s IH]; intros c r H; simpl in H; [discriminate|].
  destruct (isspace a) eqn:E.
  - eapply IH; eauto.
  - inversion H; subst. exact E.
Qed.

Lemma drop_trailing_cons : forall c r,
  drop_trailing (String c r)
  = match drop_trailing r with
    | EmptyString => if isspace c then EmptyString else String c EmptyString
    | String c' r' => String c (String c' r')
    end.
Proof. reflexivity. Qed.

Lemma drop_trailing_idem : forall s, drop_trailing (drop_trailing s) = drop_trailing s.
Proof.
  induction s as [|c r IH]; [reflexivity|].
  rewrite drop_trailing_cons.
  destruct (drop_trailing r) as [|c' r'] eqn:E.
  - destruct (isspace c) eqn:Ec; [reflexivity|].
    rewrite drop_trailing_cons. cbn [drop_trailing]. rewrite Ec. reflexivity.
  - rewrite drop_trailing_cons, IH. reflexivity.
Qed.

(** The last character of what [drop_trailing] keeps is not a space. *)
Lemma drop_trailing_last : forall s pre c,
  drop_trailing s = String.append pre (String c EmptyString) -> isspace c = false.
Proof.
  induction s as [|a r IH]; intros pre c H; cbn [drop_trailing] in H.
  - destruct pre; discriminate H.
  - destruct (drop_trailing r) as [|c' r'] eqn:E.
    + destruct (isspace a) eqn:Ea.
      * destruct pre; discriminate H.
      * destruct pre as [|p pre]; simpl in H.
        -- inversion H; subst. exact Ea.
        -- inversion H. destruct pre; discriminate.
    + destruct pre as [|p pre]; simpl in H.
      * inversion H.
      * inversion H; subst. eapply IH. eauto.
Qed.

Lemma trim_trim : forall s, trim (trim s) = trim s.
Proof.
  intros s. remember (trim s) as t eqn:Ht. unfold trim in Ht.
  destruct (skip_leading s) as [|a r] eqn:E; subst t; [reflexivity|].
  pose proof (skip_leading_head s a r E) as Ha.
  unfold trim. cbn [skip_leading]. rewrite Ha, drop_trailing_idem. reflexivity.
Qed.

(** X4: [trim] returns a string without whitespace at either end, and
    trimming a trimmed string changes nothing. *)
Theorem trim_is_clean_and_idempotent : forall s,
  trim (trim s) = trim s
  /\ (forall c r, trim s = String c r -> isspace c = false)
  /\ (forall pre c, trim s = String.append pre (String c EmptyString) ->
        isspace c = false).
Proof.
  intros s. remember (trim s) as t eqn:Ht. unfold trim in Ht.
  destruct (skip_leading s) as [|a r] eqn:E; subst t.
  - split; [reflexivity|]. split.
    + intros c r' H. discriminate H.
    + intros pre c H. destruct pre; discriminate H.
  - pose proof (skip_leading_head s a r E) as Ha.
    split; [|split].
    + change (String a (drop_trailing r)) with
        (match String a r with
         | EmptyString => EmptyString
         | String c r0 => String c (drop_trailing r0)
         end).
      rewrite <- E. apply trim_trim.
    + intros c r' H. inversion H; subst. exact Ha.
    + intros pre c H. destruct pre as [|p pre]; simpl in H.
      * inversion H; subst. exact Ha.
      * inversion H; subst. eapply drop_trailing_last. eauto.
Qed.

(** ** The line scan *)

(** A line as the scan can return it: no newline and no NUL inside. *)
Fixpoint plain (s : string) : bool :=
  match s with
  | EmptyString => true
  | String c r => negb (Ascii.eqb c nl) && negb (Ascii.eqb c nul) && plain r
  end.

Lemma lines_from_line : forall l rest,
  plain l = true ->
  lines_from (String.append l (String nl rest))
  = l :: match rest with
         | EmptyString => []
         | _ => lines_from rest
         end.
Proof.
  induction l as [|c l IH]; intros rest H.
  - reflexivity.
  - simpl in H. apply andb_true_iff in H. destruct H as [H Hl].
    apply andb_true_iff in H. destruct H as [H1 H2].
    apply negb_true_iff in H1, H2.
    cbn [String.append lines_from]. rewrite H1, H2.
    rewrite (IH rest Hl). reflexivity.
Qed.

(** X5: the line scan of the parser recovers the lines of a text in
    which every line is ended by a newline: each line is visited once,
    in order, and no empty line is added after the last newline. *)
Theorem lines_of_unlines : forall ls,
  forallb plain ls = true ->
  lines (HlsParserFacts.unlines ls) = ls.
Proof.
  induction ls as [|l rest IH]; intros H; [reflexivity|].
  cbn [forallb] in H. apply andb_true_iff in H. destruct H as [Hl Hrest].
  cbn [HlsParserFacts.unlines]. unfold lines.
  destruct (String.append l (String nl (HlsParserFacts.unlines rest))) eqn:E.
  - destruct l; discriminate E.
  - rewrite <- E. rewrite (lines_from_line l _ Hl).
    f_equal. specialize (IH Hrest). unfold lines in IH. exact IH.
Qed.

Lemma lines_of_unlines_witness :
  forallb plain ["#EXTM3U"; ""; "  seg1.ts  "] = true
  /\ lines (HlsParserFacts.unlines ["#EXTM3U"; ""; "  seg1.ts  "])
     = ["#EXTM3U"; ""; "  seg1.ts  "].
Proof.
  assert (H : forallb plain ["#EXTM3U"; ""; "  seg1.ts  "] = true) by reflexivity.
  split; [exact H|].
  exact (lines_of_unlines ["#EXTM3U"; ""; "  seg1.ts  "] H).
Defined.

(** ** What a parse adds to the playlist *)

Import HlsParserFacts.







(** ** Media playlists keep the order of the text *)

Lemma tag_not_uri : forall tag t,
  has_tag (String "#"%char tag) t = true -> is_uri_line t = false.
Proof.
  intros tag t H. unfold has_tag in H.
  destruct t as [|c t]; [reflexivity|].
  rewrite prefix_cons in H.
  destruct (ascii_dec "#"%char c) as [<-|]; [reflexivity | discriminate H].
Qed.






(** ** The segment array and its block *)

Lemma classify_reaches : forall t a p d,
  reaches_add_segment t p = true ->
  classify t (mk_pstate a p d)
  = (let '(e, a', p') := add_segment t d a p in (e, mk_pstate a' p' d)).
Proof.
  intros t a p d H. unfold reaches_add_segment in H. unfold classify.
  cbn [ps_alloc ps_playlist ps_duration].
  repeat (apply andb_prop in H; destruct H as [H ?]).
  repeat match goal with
         | K : negb ?b = true |- _ => apply negb_true_iff in K; rewrite K
         end.
  match goal with K : is_uri_line t = true |- _ => rewrite K end.
  destruct (type p); try reflexivity. discriminate.
Qed.







Lemma uri_reaches : forall t p,
  is_uri_line t = true ->
  type p <> HLS_PLAYLIST_MASTER ->
  reaches_add_segment t p = true.
Proof.
  intros t p Hu Hp. unfold reaches_add_segment.
  assert (Ht : forall tag, has_tag (String "#"%char tag) t = false).
  { intros tag. destruct (has_tag (String "#"%char tag) t) eqn:E; [|reflexivity].
    apply tag_not_uri in E. congruence. }
  rewrite !Ht, Hu. cbn [negb andb]. destruct (type p); congruence.
Qed.

(** The playlist after line 130 doubled the capacity and the [realloc]
    of line 131 failed. *)
Definition after_failed_growth (p : hls_playlist_t) : hls_playlist_t :=
  mk_playlist (type p) (base_url p) (segments p) (segment_capacity p * 2) (variants p).

(** X10: a failed growth leaves the capacity field doubled although the
    block is the old one.  For a playlist that is not a master playlist
    and whose block is full (count = capacity = slots of the block), a
    parse whose first line is a URI line and whose [realloc] fails
    returns [HLS_ERROR_MEMORY] without writing, with the field doubled;
    when the same playlist is parsed into again, a first URI line is
    written at index count, one slot past the end of the block. *)
Theorem failed_growth_then_write_outside_the_block :
  forall p data1 l1 rest1 data2 l2 rest2 base,
  type p <> HLS_PLAYLIST_MASTER ->
  (0 < segment_capacity p)%nat ->
  segment_count p = segment_capacity p ->
  lines data1 = l1 :: rest1 -> is_uri_line (trim l1) = true ->
  lines data2 = l2 :: rest2 -> is_uri_line (trim l2) = true ->
  hls_parse_playlist_from_memory [true; false] (Some data1) None (Some p)
  = (HLS_ERROR_MEMORY, [], Some (after_failed_growth p))
  /\ parse_block [true; false] data1 None p (segment_capacity p)
     = (segment_capacity p, true)
  /\ snd (parse_block Alloc.all_ok data2 base (after_failed_growth p)
            (segment_capacity p)) = false.
Proof.
  intros p data1 l1 rest1 data2 l2 rest2 base Hty Hpos Hfull Hl1 Hu1 Hl2 Hu2.
  pose proof (uri_reaches (trim l1) p Hu1 Hty) as Hr1.
  assert (Hgrow : Nat.leb (segment_capacity p) (segment_count p) = true)
    by (apply Nat.leb_le; lia).
  split; [|split].
  - unfold hls_parse_playlist_from_memory. cbn [store_base_url]. rewrite Hl1.
    cbn [parse_lines]. unfold process_line. cbn [ps_alloc ps_playlist ps_duration Alloc.take].
    rewrite (classify_reaches _ _ _ _ Hr1). unfold add_segment. rewrite Hgrow.
    reflexivity.
  - unfold parse_block. cbn [store_base_url]. rewrite Hl1.
    cbn [parse_lines_block]. unfold line_block, process_line.
    cbn [ps_alloc ps_playlist ps_duration Alloc.take andb]. rewrite Hr1.
    rewrite (classify_reaches _ _ _ _ Hr1). unfold add_segment, add_segment_block.
    rewrite Hgrow. reflexivity.
  - unfold parse_block.
    assert (Hb : exists p1, store_base_url base Alloc.all_ok (after_failed_growth p)
                            = ([], p1)
                            /\ type p1 = type p /\ segments p1 = segments p
                            /\ segment_capacity p1 = segment_capacity p * 2).
    { unfold store_base_url. destruct base; eexists; split; try reflexivity; auto. }
    destruct Hb as (p1 & -> & T1 & T2 & T3). rewrite Hl2.
    cbn [parse_lines_block].
    assert (Hline : line_block l2 (mk_pstate [] p1 None) (segment_capacity p)
                    = (segment_capacity p, false)).
    { unfold line_block. cbn [ps_alloc ps_playlist Alloc.take andb].
      rewrite (uri_reaches (trim l2) p1 Hu2) by (rewrite T1; exact Hty).
      unfold add_segment_block, segment_count in *. rewrite T2, T3.
      replace (Nat.leb (segment_capacity p * 2) (List.length (segments p)))
        with false by (symmetry; apply Nat.leb_gt; lia).
      cbn [snd]. f_equal. apply Nat.ltb_ge. lia. }
    rewrite Hline.
    destruct (process_line l2 (mk_pstate [] p1 None)) as [e st1].
    destruct e; try reflexivity.
    destruct (parse_lines_block rest2 st1 (segment_capacity p)); reflexivity.
Qed.

Definition full_playlist : hls_playlist_t :=
  mk_playlist HLS_PLAYLIST_MEDIA None [mk_segment "a.ts" None false None None] 1 [].

Lemma failed_growth_then_write_outside_the_block_witness :
  hls_parse_playlist_from_memory [true; false] (Some "b.ts") None (Some full_playlist)
  = (HLS_ERROR_MEMORY, [], Some (after_failed_growth full_playlist))
  /\ parse_block [true; false] "b.ts" None full_playlist
       (segment_capacity full_playlist)
     = (segment_capacity full_playlist, true)
  /\ snd (parse_block Alloc.all_ok "c.ts" (Some "http://h/")
            (after_failed_growth full_playlist)
            (segment_capacity full_playlist)) = false.
Proof.
  apply (failed_growth_then_write_outside_the_block full_playlist
           "b.ts" "b.ts" [] "c.ts" "c.ts" [] (Some "http://h/"));
    try reflexivity; [discriminate | cbn; lia].
Defined.


End HlsParserMore.
